(** * capture_final.py: the LED-grid capture rig, embedded and verified

    The script drives an 8x8 addressable LED strip and a camera from an
    interactive command loop.  This development embeds the script as a
    state-and-exception monad over an explicit [world] (module globals, LED
    driver buffer, physical LEDs, camera, file system, clock and the log of
    observable events) and proves properties of the capture sequence and of
    the command handlers.

    Modelling choices: strings are ASCII; pauses are counted in
    milliseconds; the camera's [capture_file] is the one call that can fail
    (the world carries the outcomes of the coming captures), the LED driver
    does not fail; the prompt printed by [input] is not logged; starting and
    stopping the camera and its preview change nothing that is modelled. *)

From Stdlib Require Import ZArith String Ascii List Sorted Lia.
From stdpp Require Import base tactics option list numbers strings pretty gmap.

Set Warnings "-clear-no-such-hyp".

Local Open Scope string_scope.
Local Open Scope list_scope.
Local Open Scope Z_scope.

(** ** Text primitives of the Python runtime (ASCII fragment) *)

Module Text.

Definition code (c : ascii) : Z := Z.of_nat (nat_of_ascii c).

Definition is_upper (c : ascii) : bool := (65 <=? code c) && (code c <=? 90).

Definition lower_char (c : ascii) : ascii :=
  if is_upper c then ascii_of_nat (nat_of_ascii c + 32) else c.

(** [str.lower()] *)
Fixpoint lower (s : string) : string :=
  match s with
  | EmptyString => EmptyString
  | String c s' => String (lower_char c) (lower s')
  end.

(** Whitespace as [str.strip()] and [str.split()] see it: TAB, LF, VT, FF,
    CR, the four separators FS, GS, RS, US and the blank. *)
Definition is_space (c : ascii) : bool :=
  ((9 <=? code c) && (code c <=? 13)) || ((28 <=? code c) && (code c <=? 32)).

Fixpoint lstrip (s : string) : string :=
  match s with
  | EmptyString => EmptyString
  | String c s' => if is_space c then lstrip s' else s
  end.

Fixpoint rstrip (s : string) : string :=
  match s with
  | EmptyString => EmptyString
  | String c s' =>
      match rstrip s' with
      | EmptyString => if is_space c then EmptyString else String c EmptyString
      | r => String c r
      end
  end.

(** [str.strip()] *)
Definition strip (s : string) : string := rstrip (lstrip s).

Definition starts_word (s : string) : bool :=
  match s with
  | EmptyString => false
  | String c _ => negb (is_space c)
  end.

(** [str.split()] without arguments: the maximal runs of non-blank
    characters, in order. *)
Fixpoint split (s : string) : list string :=
  match s with
  | EmptyString => []
  | String c s' =>
      if is_space c then split s'
      else if starts_word s' then
        match split s' with
        | w :: ws => String c w :: ws
        | [] => [String c EmptyString]
        end
      else String c EmptyString :: split s'
  end.

(** The first word of a string that starts with one, and what follows it. *)
Fixpoint take_word (s : string) : string * string :=
  match s with
  | EmptyString => (EmptyString, EmptyString)
  | String c s' =>
      if is_space c then (EmptyString, s)
      else let '(w, r) := take_word s' in (String c w, r)
  end.

(** [str.split(maxsplit=1)]: the first word, then the remainder with its
    leading blanks removed (and kept whole) when it is not empty. *)
Definition split1 (s : string) : list string :=
  match lstrip s with
  | EmptyString => []
  | s0 =>
      let '(w, r) := take_word s0 in
      match lstrip r with
      | EmptyString => [w]
      | r' => [w; r']
      end
  end.

(** [str.startswith(p)] *)
Definition startswith (s p : string) : bool := String.prefix p s.

Definition endswith (s p : string) : bool :=
  String.prefix (String.rev p) (String.rev s).

Definition digit_val (c : ascii) : option Z :=
  if (48 <=? code c) && (code c <=? 57) then Some (code c - 48) else None.

(** The digits of an [int()] literal: decimal digits, with single
    underscores allowed between two digits. *)
Fixpoint parse_digits (acc : Z) (after_digit : bool) (s : string) : option Z :=
  match s with
  | EmptyString => if after_digit then Some acc else None
  | String c s' =>
      match digit_val c with
      | Some d => parse_digits (10 * acc + d) true s'
      | None =>
          if Ascii.eqb c "_" && after_digit then parse_digits acc false s'
          else None
      end
  end.

(** [int(s)] on a string without blanks: an optional sign and the digits;
    [None] stands for [ValueError]. *)
Definition parse_int (s : string) : option Z :=
  match s with
  | String "+" s' => parse_digits 0 false s'
  | String "-" s' => Z.opp <$> parse_digits 0 false s'
  | _ => parse_digits 0 false s
  end.

(** [os.path.join(a, b)] of posixpath. *)
Definition path_join (a b : string) : string :=
  if startswith b "/" then b
  else if String.eqb a "" || endswith a "/" then a +:+ b
  else a +:+ "/" +:+ b.

Definition has_upper (s : string) : bool :=
  existsb is_upper (list_ascii_of_string s).

End Text.

Import Text.

(** ** Exceptions, observable events and the state of the rig *)

Inductive exn :=
| IndexError | ValueError | TypeError | OverflowError
| FileExistsError | CameraError | KeyboardInterrupt.

(** What the outside world sees, in order: lines printed, frames latched by
    [strip.show()] (the colour of each of the 64 LEDs and the brightness
    level), pauses in milliseconds, camera captures with their outcome,
    directory creation and camera control updates. *)
Inductive event :=
| Print (line : string)
| Show (frame : list Z) (level : Z)
| Sleep (ms : Z)
| Capture (path : string) (ok : bool)
| MakeDirs (path : string)
| SetControls (exposure : Z).

(** The module-level variables of the script. *)
Record globals := Globals {
  current_brightness : Z;
  current_led_count : Z;
  current_exposure : Z;
  current_color : string;
  current_folder_name : option string
}.

(** The Adafruit_NeoPixel object: the pixel buffer written by
    [setPixelColor], the brightness written by [setBrightness], and what
    the physical LEDs show since the last [show()]. *)
Record neopixel := NeoPixel {
  pixels : list Z;
  level : Z;
  leds : list Z;
  leds_level : Z
}.

Record datetime := DateTime {
  year : Z; month : Z; day : Z; hour : Z; minute : Z; second : Z
}.

Record world := World {
  cfg : globals;
  strip : neopixel;
  camera_exposure : Z;
  camera_faults : list bool;  (* outcome of the next capture_file calls: true raises *)
  clock : datetime;           (* what datetime.now() returns *)
  dirs : gset string;
  files : gset string;
  trace : list event
}.

Definition with_cfg (f : globals -> globals) (w : world) : world :=
  World (f (cfg w)) (strip w) (camera_exposure w) (camera_faults w) (clock w)
        (dirs w) (files w) (trace w).
Definition with_strip (f : neopixel -> neopixel) (w : world) : world :=
  World (cfg w) (f (strip w)) (camera_exposure w) (camera_faults w) (clock w)
        (dirs w) (files w) (trace w).
Definition with_camera_exposure (e : Z) (w : world) : world :=
  World (cfg w) (strip w) e (camera_faults w) (clock w)
        (dirs w) (files w) (trace w).
Definition with_camera_faults (l : list bool) (w : world) : world :=
  World (cfg w) (strip w) (camera_exposure w) l (clock w)
        (dirs w) (files w) (trace w).
Definition with_dirs (d : gset string) (w : world) : world :=
  World (cfg w) (strip w) (camera_exposure w) (camera_faults w) (clock w)
        d (files w) (trace w).
Definition with_files (d : gset string) (w : world) : world :=
  World (cfg w) (strip w) (camera_exposure w) (camera_faults w) (clock w)
        (dirs w) d (trace w).
Definition log (e : event) (w : world) : world :=
  World (cfg w) (strip w) (camera_exposure w) (camera_faults w) (clock w)
        (dirs w) (files w) (trace w ++ [e]).

Definition set_brightness (v : Z) (g : globals) : globals :=
  Globals v (current_led_count g) (current_exposure g) (current_color g)
          (current_folder_name g).
Definition set_led_count (v : Z) (g : globals) : globals :=
  Globals (current_brightness g) v (current_exposure g) (current_color g)
          (current_folder_name g).
Definition set_exposure (v : Z) (g : globals) : globals :=
  Globals (current_brightness g) (current_led_count g) v (current_color g)
          (current_folder_name g).
Definition set_color (v : string) (g : globals) : globals :=
  Globals (current_brightness g) (current_led_count g) (current_exposure g) v
          (current_folder_name g).
Definition set_folder_name (v : option string) (g : globals) : globals :=
  Globals (current_brightness g) (current_led_count g) (current_exposure g)
          (current_color g) v.

(** ** The monad: state passing with Python exceptions *)

Inductive result (A : Type) :=
| Ok (a : A)
| Raise (e : exn).
Arguments Ok {A} a.
Arguments Raise {A} e.

Definition M (A : Type) : Type := world -> result A * world.

Global Instance M_ret : MRet M := fun A a w => (Ok a, w).
Global Instance M_bind : MBind M := fun A B k m w =>
  match m w with
  | (Ok a, w') => k a w'
  | (Raise e, w') => (Raise e, w')
  end.

Definition raise {A} (e : exn) : M A := fun w => (Raise e, w).
Definition gets {A} (f : world -> A) : M A := fun w => (Ok (f w), w).
Definition modify (f : world -> world) : M unit := fun w => (Ok tt, f w).

(** [try: body except: handler] with a bare [except], which catches every
    exception. *)
Definition try_except {A} (body : M A) (handler : M A) : M A := fun w =>
  match body w with
  | (Ok a, w') => (Ok a, w')
  | (Raise _, w') => handler w'
  end.

(** [try: body except KeyboardInterrupt: handler] *)
Definition try_except_interrupt {A} (body : M A) (handler : M A) : M A := fun w =>
  match body w with
  | (Raise KeyboardInterrupt, w') => handler w'
  | r => r
  end.

(** [for x in l: body] *)
Fixpoint for_each {A} (l : list A) (body : A -> M unit) : M unit :=
  match l with
  | [] => mret tt
  | x :: l' => body x;; for_each l' body
  end.

(** [range(a, b)] *)
Definition range (a b : Z) : list Z := seqZ a (b - a).

(** ** Constants and helpers of the script *)

Definition PHYSICAL_GRID_SIZE : Z := 8.
Definition DEFAULT_BRIGHTNESS : Z := 100.
Definition DEFAULT_LED_GRID : Z := 4.
Definition DEFAULT_EXPOSURE : Z := 10000.
Definition DEFAULT_COLOR : string := "green".
Definition FOCUS_LED_INDEX : Z := 27.
Definition base_path : string := "/home/fpm/camera_capture2".
Definition LED_COUNT : Z := PHYSICAL_GRID_SIZE ^ 2.

Definition index (row col : Z) : Z := row * PHYSICAL_GRID_SIZE + col.

(** [rpi_ws281x.Color(red, green, blue)]: the packed 24-bit value. *)
Definition Color (red green blue : Z) : Z :=
  Z.lor (Z.shiftl red 16) (Z.lor (Z.shiftl green 8) blue).

Definition get_color (name : string) : Z :=
  let name := lower name in
  if String.eqb name "white" then Color 255 255 255
  else if String.eqb name "red" then Color 255 0 0
  else if String.eqb name "green" then Color 0 255 0
  else if String.eqb name "blue" then Color 0 0 255
  else if String.eqb name "off" then Color 0 0 0
  else Color 255 255 255.

(** ** The hardware and operating-system interface *)

Definition print (line : string) : M unit := modify (log (Print line)).

Definition sleep_ms (ms : Z) : M unit := modify (log (Sleep ms)).

(** [strip.setPixelColor(i, c)]: the driver ignores an index outside the
    strip. *)
Definition poke (i c : Z) (px : list Z) : list Z :=
  if (0 <=? i) && (i <? Z.of_nat (length px)) then <[Z.to_nat i := c]> px else px.

Definition setPixelColor (i c : Z) : M unit :=
  modify (with_strip (fun s =>
    NeoPixel (poke i c (pixels s)) (level s) (leds s) (leds_level s))).

Definition setBrightness (b : Z) : M unit :=
  modify (with_strip (fun s => NeoPixel (pixels s) b (leds s) (leds_level s))).

(** [strip.show()]: the buffer and the brightness reach the LEDs. *)
Definition show : M unit :=
  modify (fun w =>
    let s := strip w in
    log (Show (pixels s) (level s))
        (with_strip (fun _ => NeoPixel (pixels s) (level s) (pixels s) (level s)) w)).

(** [picam2.capture_file(path)]: writes (or overwrites) the file, unless the
    camera fails. *)
Definition capture_file (path : string) : M unit := fun w =>
  match camera_faults w with
  | true :: rest =>
      (Raise CameraError, log (Capture path false) (with_camera_faults rest w))
  | _ :: rest =>
      (Ok tt, log (Capture path true)
                  (with_files ({[ path ]} ∪ files w) (with_camera_faults rest w)))
  | [] =>
      (Ok tt, log (Capture path true) (with_files ({[ path ]} ∪ files w) w))
  end.

Definition set_controls (exposure : Z) : M unit :=
  modify (fun w => log (SetControls exposure) (with_camera_exposure exposure w)).

(** [os.makedirs(path, exist_ok=...)] *)
Definition makedirs (path : string) (exist_ok : bool) : M unit := fun w =>
  if bool_decide (path ∈ files w) then (Raise FileExistsError, w)
  else if bool_decide (path ∈ dirs w) then
    if exist_ok then (Ok tt, log (MakeDirs path) w) else (Raise FileExistsError, w)
  else (Ok tt, log (MakeDirs path) (with_dirs ({[ path ]} ∪ dirs w) w)).

Definition pad2 (n : Z) : string :=
  if n <? 10 then "0" +:+ pretty n else pretty n.

(** [d.strftime("%Y-%m-%d_%H-%M-%S")] *)
Definition strftime (d : datetime) : string :=
  pretty (year d) +:+ "-" +:+ pad2 (month d) +:+ "-" +:+ pad2 (day d) +:+ "_" +:+
  pad2 (hour d) +:+ "-" +:+ pad2 (minute d) +:+ "-" +:+ pad2 (second d).

(** ** The script *)

Inductive control := Continue | Break.

(** One read of [input("> ")]: a line typed by the operator, or Ctrl-C. *)
Inductive input := Line (s : string) | Interrupt.

(** How a session stands after the inputs fed so far: still reading
    commands, or finished through the cleanup code. (An exception that
    leaves the loop ends the process with a traceback: the [Raise] result.) *)
Inductive process := AtPrompt | Exited.

Section Script.

(** [int(v ** 0.5)] for an integer [v >= 0] goes through the platform's
    floating-point power; [float_root v] is its result, [None] when the
    conversion of [v] to a float raises [OverflowError]. *)
Variable float_root : Z -> option Z.

(** [int(v ** 0.5)]: a negative [v] gives a complex number, on which
    [int()] raises [TypeError]. *)
Definition int_pow_half (v : Z) : M Z :=
  if v <? 0 then raise TypeError
  else match float_root v with
       | Some n => mret n
       | None => raise OverflowError
       end.

Definition turn_off_all_leds : M unit :=
  for_each (range 0 (PHYSICAL_GRID_SIZE ^ 2))
           (fun i => setPixelColor i (get_color "off"));;
  show.

Definition focus_led_on : M unit :=
  turn_off_all_leds;;
  b ← gets (fun w => current_brightness (cfg w));
  setBrightness b;;
  c ← gets (fun w => current_color (cfg w));
  setPixelColor FOCUS_LED_INDEX (get_color c);;
  show.

Definition frame_name (row col : Z) : string :=
  "led_r" +:+ pretty row +:+ "_c" +:+ pretty col +:+ ".jpg".

(** Lines 72-86: the body of the two nested loops. *)
Definition capture_one (save_dir : string) (row col : Z) : M unit :=
  let idx := index row col in
  print ("Lighting LED at row " +:+ pretty row +:+ ", col " +:+ pretty col
         +:+ " (index " +:+ pretty idx +:+ ")");;
  b ← gets (fun w => current_brightness (cfg w));
  setBrightness b;;
  c ← gets (fun w => current_color (cfg w));
  setPixelColor idx (get_color c);;
  show;;
  sleep_ms 300;;
  let filename := path_join save_dir (frame_name row col) in
  capture_file filename;;
  print ("Captured " +:+ filename);;
  setPixelColor idx (get_color "off");;
  show;;
  sleep_ms 100.

(** Lines 60-65: where the images go. An unset or empty folder name is
    falsy. *)
Definition resolve_save_dir : M string :=
  folder ← gets (fun w => current_folder_name (cfg w));
  match folder with
  | Some (String c name) => mret (path_join base_path (String c name))
  | _ =>
      now ← gets clock;
      mret (path_join base_path (strftime now))
  end.

Definition capture_sequence : M unit :=
  turn_off_all_leds;;
  count ← gets (fun w => current_led_count (cfg w));
  n ← int_pow_half count;
  let start := (PHYSICAL_GRID_SIZE - n) `div` 2 in
  save_dir ← resolve_save_dir;
  makedirs save_dir true;;
  print ("Saving images to: " +:+ save_dir);;
  for_each (range start (start + n)) (fun row =>
    for_each (range start (start + n)) (fun col =>
      capture_one save_dir row col));;
  print "Capture complete.";;
  focus_led_on.

(** [l[i]] *)
Definition item (l : list string) (i : nat) : M string :=
  match l !! i with
  | Some t => mret t
  | None => raise IndexError
  end.

(** [int(s)] *)
Definition int_of (s : string) : M Z :=
  match parse_int s with
  | Some v => mret v
  | None => raise ValueError
  end.

Definition cmd_brightness (user_input : string) : M unit :=
  try_except
    (tok ← item (split user_input) 1;
     val ← int_of tok;
     if (0 <=? val) && (val <=? 255) then
       modify (with_cfg (set_brightness val));;
       focus_led_on
     else print "Brightness must be 0–255.")
    (print "Usage: brightness <value>").

Definition cmd_leds (user_input : string) : M unit :=
  try_except
    (tok ← item (split user_input) 1;
     val ← int_of tok;
     n ← int_pow_half val;
     if (n * n =? val) && (n <=? PHYSICAL_GRID_SIZE) then
       modify (with_cfg (set_led_count val));;
       print ("LED grid for capture: " +:+ pretty val)
     else print "Must be square number ≤ 64.")
    (print "Usage: leds <value>").

Definition cmd_exposure (user_input : string) : M unit :=
  try_except
    (tok ← item (split user_input) 1;
     val ← int_of tok;
     if 0 <? val then
       modify (with_cfg (set_exposure val));;
       e ← gets (fun w => current_exposure (cfg w));
       set_controls e;;
       print ("Exposure set to " +:+ pretty val +:+ " µs.")
     else print "Must be positive.")
    (print "Usage: exposure <μs>").

Definition cmd_color (user_input : string) : M unit :=
  try_except
    (val ← item (split user_input) 1;
     if bool_decide (val ∈ ["red"; "green"; "blue"; "white"]) then
       modify (with_cfg (set_color val));;
       focus_led_on;;
       print ("Color set to " +:+ val)
     else print "Invalid color.")
    (print "Usage: color <name>").

Definition cmd_folder (user_input : string) : M unit :=
  match split1 user_input with
  | [_; arg] =>
      match Text.strip arg with
      | EmptyString => print "Usage: folder <folder_name>"
      | name =>
          modify (with_cfg (set_folder_name (Some name)));;
          print ("Folder name set to: " +:+ name)
      end
  | _ => print "Usage: folder <folder_name>"
  end.

(** Lines 125-187: the chain of tests on the normalised line. *)
Definition handle_input (user_input : string) : M control :=
  if bool_decide (user_input ∈ ["exit"; "quit"]) then mret Break
  else if startswith user_input "brightness" then
    cmd_brightness user_input;; mret Continue
  else if startswith user_input "leds" then
    cmd_leds user_input;; mret Continue
  else if startswith user_input "exposure" then
    cmd_exposure user_input;; mret Continue
  else if startswith user_input "color" then
    cmd_color user_input;; mret Continue
  else if startswith user_input "folder" then
    cmd_folder user_input;; mret Continue
  else if String.eqb user_input "capture" then
    capture_sequence;; mret Continue
  else print "Unknown command.";; mret Continue.

(** Lines 123-187: what the loop does with one line read,
    [user_input = input("> ").strip().lower()]. *)
Definition handle_line (line : string) : M control :=
  handle_input (lower (Text.strip line)).

(** One turn of [while True]: the [try] with its
    [except KeyboardInterrupt: break]. *)
Definition loop_turn (i : input) : M control :=
  try_except_interrupt
    (match i with
     | Line s => handle_line s
     | Interrupt => raise KeyboardInterrupt
     end)
    (mret Break).

(** The loop over the inputs fed so far: [true] when it was left by
    [break]. *)
Fixpoint command_loop (inputs : list input) : M bool :=
  match inputs with
  | [] => mret false
  | i :: rest =>
      c ← loop_turn i;
      match c with
      | Break => mret true
      | Continue => command_loop rest
      end
  end.

(** Lines 193-196. *)
Definition cleanup : M unit :=
  turn_off_all_leds;;
  print "Done.".

(** Lines 101-119: the pause after the camera start, camera controls,
    focus indicator, banner. *)
Definition startup : M unit :=
  sleep_ms 1000;;
  e ← gets (fun w => current_exposure (cfg w));
  set_controls e;;
  focus_led_on;;
  for_each ["Live preview active."; "Commands:"; "  brightness <0–255>";
            "  leds <1, 4, 9, ...>"; "  exposure <μs>";
            "  color <red|green|blue|white>"; "  folder <folder_name>";
            "  capture"; "  exit"] print.

Definition session (inputs : list input) : M process :=
  left ← command_loop inputs;
  if left : bool then cleanup;; mret Exited else mret AtPrompt.

Definition program (inputs : list input) : M process :=
  startup;; session inputs.

End Script.

(** The globals as the module initialises them (lines 23-28). *)
Definition initial_globals : globals :=
  Globals DEFAULT_BRIGHTNESS DEFAULT_LED_GRID DEFAULT_EXPOSURE DEFAULT_COLOR None.

(** The strip after [strip.begin()]: 64 dark pixels. *)
Definition initial_strip : neopixel :=
  NeoPixel (replicate 64 0) DEFAULT_BRIGHTNESS (replicate 64 0) DEFAULT_BRIGHTNESS.

Definition initial_world (faults : list bool) (now : datetime) : world :=
  World initial_globals initial_strip 0 faults now ∅ ∅ [].

(** A floating-point power that is exact on every input. *)
Definition exact_root (v : Z) : option Z := Some (Z.sqrt v).

(** ** Vocabulary of the statements *)

(** The coordinates visited by the two nested loops of [capture_sequence],
    in the order the loops visit them. *)
Definition sub_grid (start n : Z) : list (Z * Z) :=
  row ← range start (start + n);
  col ← range start (start + n);
  [(row, col)].

(** Lines 57-58 and 70-71 on their own: the plan a run computes from the
    stored count. *)
Definition capture_plan (float_root : Z -> option Z) (count : Z) : M (list (Z * Z)) :=
  n ← int_pow_half float_root count;
  let start := (PHYSICAL_GRID_SIZE - n) `div` 2 in
  mret (sub_grid start n).

(** Row-major order on coordinates. *)
Definition row_major_lt (p q : Z * Z) : Prop :=
  p.1 < q.1 \/ (p.1 = q.1 /\ p.2 < q.2).

(** A count the [leds] guard lets through: the square of some 0..8. *)
Definition square_count (v : Z) : Prop := exists n, 0 <= n <= 8 /\ v = n * n.

(** The strip has its 64 pixels. *)
Definition wf_world (w : world) : Prop := length (pixels (strip w)) = 64%nat.

(** All 64 LEDs dark, and a single LED showing a colour. *)
Definition dark : list Z := replicate 64 0.
Definition lit (i c : Z) : list Z := <[Z.to_nat i := c]> dark.

(** How many LEDs of a frame are on. *)
Definition lit_count (frame : list Z) : nat :=
  length (filter (fun x => x <> 0) frame).

(** The frames latched by the [show()] calls of a trace. *)
Definition frames_of (evs : list event) : list (list Z) :=
  omap (fun e => match e with Show f _ => Some f | _ => None end) evs.

(** The files the camera wrote in a trace. *)
Definition captured (evs : list event) : list string :=
  omap (fun e => match e with Capture p true => Some p | _ => None end) evs.

(** Starting after the frame [prev]: every frame has at most one LED on, and
    of two frames in a row one is dark. *)
Fixpoint one_at_a_time (prev : list Z) (fs : list (list Z)) : Prop :=
  match fs with
  | [] => True
  | f :: fs' =>
      (lit_count f <= 1)%nat /\ (prev = dark \/ f = dark) /\ one_at_a_time f fs'
  end.

(** The events of one coordinate's turn, when the camera works. *)
Definition coord_events (save_dir : string) (b : Z) (c : Z) (rc : Z * Z) : list event :=
  let idx := index rc.1 rc.2 in
  let filename := path_join save_dir (frame_name rc.1 rc.2) in
  [ Print ("Lighting LED at row " +:+ pretty rc.1 +:+ ", col " +:+ pretty rc.2
           +:+ " (index " +:+ pretty idx +:+ ")");
    Show (lit idx c) b;
    Sleep 300;
    Capture filename true;
    Print ("Captured " +:+ filename);
    Show dark b;
    Sleep 100 ].

(** The events of a turn on which the camera fails. *)
Definition failed_events (save_dir : string) (b : Z) (c : Z) (rc : Z * Z) : list event :=
  let idx := index rc.1 rc.2 in
  [ Print ("Lighting LED at row " +:+ pretty rc.1 +:+ ", col " +:+ pretty rc.2
           +:+ " (index " +:+ pretty idx +:+ ")");
    Show (lit idx c) b;
    Sleep 300;
    Capture (path_join save_dir (frame_name rc.1 rc.2)) false ].

(** The directory a run started in [w] saves to. *)
Definition save_dir_of (w : world) : string :=
  match current_folder_name (cfg w) with
  | Some (String c name) => path_join base_path (String c name)
  | _ => path_join base_path (strftime (clock w))
  end.

(** Reading the coordinate back from a frame's file name. *)
Fixpoint span_digits (s : string) : string * string :=
  match s with
  | EmptyString => (EmptyString, EmptyString)
  | String c s' =>
      match digit_val c with
      | Some _ => let '(d, r) := span_digits s' in (String c d, r)
      | None => (EmptyString, s)
      end
  end.

Fixpoint strip_prefix (p s : string) : option string :=
  match p, s with
  | EmptyString, _ => Some s
  | String a p', String b s' => if Ascii.eqb a b then strip_prefix p' s' else None
  | _, _ => None
  end.

Definition coord_of_name (name : string) : option (Z * Z) :=
  s1 ← strip_prefix "led_r" name;
  let '(r, s2) := span_digits s1 in
  s3 ← strip_prefix "_c" s2;
  let '(c, s4) := span_digits s3 in
  if String.eqb s4 ".jpg" then
    row ← parse_int r; col ← parse_int c; Some (row, col)
  else None.




(** The world after [turn_off_all_leds], and after [focus_led_on]. *)
Definition all_off (w : world) : world :=
  log (Show dark (level (strip w)))
      (with_strip (fun s => NeoPixel dark (level s) dark (level s)) w).

Definition focus_on (w : world) : world :=
  let b := current_brightness (cfg w) in
  let c := get_color (current_color (cfg w)) in
  log (Show (lit FOCUS_LED_INDEX c) b)
      (with_strip (fun _ => NeoPixel (lit FOCUS_LED_INDEX c) b (lit FOCUS_LED_INDEX c) b)
                  (all_off w)).

(** The world after the turn of coordinate [rc], the strip dark before it. *)
Definition after_coord (save_dir : string) (rc : Z * Z) (w : world) : world :=
  let b := current_brightness (cfg w) in
  let c := get_color (current_color (cfg w)) in
  World (cfg w) (NeoPixel dark b dark b) (camera_exposure w)
        (tail (camera_faults w)) (clock w) (dirs w)
        ({[ path_join save_dir (frame_name rc.1 rc.2) ]} ∪ files w)
        (trace w ++ coord_events save_dir b c rc).

(** The world in which the camera failed on coordinate [rc]. *)
Definition failed_coord (save_dir : string) (rc : Z * Z) (w : world) : world :=
  let b := current_brightness (cfg w) in
  let c := get_color (current_color (cfg w)) in
  let idx := index rc.1 rc.2 in
  World (cfg w) (NeoPixel (lit idx c) b (lit idx c) b) (camera_exposure w)
        (tail (camera_faults w)) (clock w) (dirs w) (files w)
        (trace w ++ failed_events save_dir b c rc).

Definition in_grid (rc : Z * Z) : Prop := 0 <= rc.1 < 8 /\ 0 <= rc.2 < 8.

(** The world after the turns of the coordinates [l], in order. *)
Definition after_coords (save_dir : string) (l : list (Z * Z)) (w : world) : world :=
  foldl (fun w rc => after_coord save_dir rc w) w l.

Definition frame_path (save_dir : string) (rc : Z * Z) : string :=
  path_join save_dir (frame_name rc.1 rc.2).

(** The world once a run has switched the LEDs off, created its directory
    and announced it. *)
Definition prepared (w : world) : world :=
  let d := save_dir_of w in
  log (Print ("Saving images to: " +:+ d))
      (log (MakeDirs d) (with_dirs ({[ d ]} ∪ dirs w) (all_off w))).

(** The plan of a run whose count is [n * n]. *)
Definition plan_of_side (n : Z) : list (Z * Z) :=
  sub_grid ((PHYSICAL_GRID_SIZE - n) `div` 2) n.

(** The world after a run over an [n] by [n] plan that completes. *)
Definition completed (n : Z) (w : world) : world :=
  focus_on (log (Print "Capture complete.")
                (after_coords (save_dir_of w) (plan_of_side n) (prepared w))).

(** The world in which a run stops when the camera fails on its capture
    number [k] (counting from 0), at coordinate [rc]. *)
Definition aborted (n : Z) (k : nat) (rc : Z * Z) (w : world) : world :=
  failed_coord (save_dir_of w) rc
    (after_coords (save_dir_of w) (take k (plan_of_side n)) (prepared w)).

(** The events with which every run that gets past the directory starts. *)
Definition prepare_events (w : world) : list event :=
  [ Show dark (level (strip w));
    MakeDirs (save_dir_of w);
    Print ("Saving images to: " +:+ save_dir_of w) ].

(** The focus indicator is what the LEDs show, and was rendered by the last
    two [show()] calls: all dark, then the focus LED alone in the current
    colour at the current brightness. *)
Definition focus_shown (w : world) : Prop :=
  let c := get_color (current_color (cfg w)) in
  leds (strip w) = lit FOCUS_LED_INDEX c /\
  leds_level (strip w) = current_brightness (cfg w) /\
  exists evs lv,
    omap (fun e => match e with Show f l => Some (f, l) | _ => None end) (trace w)
    = evs ++ [(dark, lv); (lit FOCUS_LED_INDEX c, current_brightness (cfg w))].

(** The argument of a command: the second word of the line, and its value
    as an integer. *)
Definition first_arg (u : string) : option string := split u !! 1%nat.
Definition numeric_arg (u : string) : option Z := first_arg u ≫= parse_int.

(** What no operation on the hardware changes: the globals and the number
    of pixels of the strip. *)
Definition shape (w : world) : globals * nat := (cfg w, length (pixels (strip w))).

Definition keeps_shape {A} (m : M A) : Prop := forall w, shape (m w).2 = shape w.

(** Text stored in the globals has no capital letter, and a stored folder
    name is not empty. *)
Definition lowercase_cfg (g : globals) : Prop :=
  has_upper (current_color g) = false /\
  forall name, current_folder_name g = Some name ->
               has_upper name = false /\ name <> "".

(** The invariant of the session. *)
Definition session_ok (w : world) : Prop :=
  wf_world w /\ square_count (current_led_count (cfg w)) /\ lowercase_cfg (cfg w).



(** [m] can return [a]. *)
Definition returns {A} (m : M A) (a : A) : Prop := exists w w', m w = (Ok a, w').

(** [m] keeps the property [P] of the world, however it ends. *)
Definition preserves (P : world -> Prop) {A} (m : M A) : Prop :=
  forall w, P w -> P (m w).2.

(** Sample worlds for the concrete runs below: a fresh rig on 7 March 2026,
    09:05:00, with a camera that works, and with one that fails on its third
    capture. *)
Definition sample_time : datetime := DateTime 2026 3 7 9 5 0.
Definition sample_world : world := initial_world [] sample_time.
Definition faulty_world : world := initial_world [false; false; true] sample_time.

(** The lines printed in a trace. *)
Definition printed (evs : list event) : list string :=
  omap (fun e => match e with Print s => Some s | _ => None end) evs.

(** A view of the world that no LED, file-system or logging step changes. *)
Definition hardware_blind {X} (f : world -> X) : Prop :=
  (forall e w, f (log e w) = f w) /\
  (forall g w, f (with_strip g w) = f w) /\
  (forall s w, f (with_files s w) = f w) /\
  (forall s w, f (with_dirs s w) = f w) /\
  (forall l w, f (with_camera_faults l w) = f w).

Definition keeps_field {X A} (f : world -> X) (m : M A) : Prop :=
  forall w, f (m w).2 = f w.

(** The globals together with the exposure the camera is set to. *)
Definition settings (w : world) : globals * Z := (cfg w, camera_exposure w).

(** The settings are in their ranges and the camera has the stored exposure. *)
Definition settings_ok (w : world) : Prop :=
  0 <= current_brightness (cfg w) <= 255 /\
  0 < current_exposure (cfg w) /\
  current_color (cfg w) ∈ ["red"; "green"; "blue"; "white"] /\
  camera_exposure w = current_exposure (cfg w).

(** The pauses of a trace, added up, in milliseconds. *)
Definition paused (evs : list event) : Z :=
  foldr Z.add 0 (omap (fun e => match e with Sleep ms => Some ms | _ => None end) evs).

(** A fresh rig on which [folder run1] has been typed. *)
Definition named_world : world :=
  with_cfg (set_folder_name (Some "run1")) sample_world.

(** ** Running the monad *)

Lemma bind_run {A B} (m : M A) (k : A -> M B) (w : world) :
  (m ≫= k) w =
  match m w with
  | (Ok a, w') => k a w'
  | (Raise e, w') => (Raise e, w')
  end.
Proof. reflexivity. Qed.

Lemma for_each_app {A} (l1 l2 : list A) (body : A -> M unit) (w : world) :
  for_each (l1 ++ l2) body w = (for_each l1 body;; for_each l2 body) w.
Proof.
  revert w. induction l1 as [|x l1 IH]; intros w; simpl.
  - reflexivity.
  - rewrite !bind_run. destruct (body x w) as [[[]|e] w1]; [|reflexivity].
    rewrite IH. reflexivity.
Qed.

Lemma for_each_bind {A B} (l : list A) (f : A -> list B) (body : B -> M unit) w :
  for_each (l ≫= f) body w = for_each l (fun x => for_each (f x) body) w.
Proof.
  revert w. induction l as [|x l IH]; intros w; simpl.
  - reflexivity.
  - rewrite for_each_app, !bind_run.
    destruct (for_each (f x) body w) as [[[]|e] w1]; [apply IH|reflexivity].
Qed.

Lemma for_each_ext {A} (l : list A) (f g : A -> M unit) w :
  (forall x w, f x w = g x w) -> for_each l f w = for_each l g w.
Proof.
  intros Hfg. revert w. induction l as [|x l IH]; intros w; simpl; [reflexivity|].
  rewrite !bind_run, Hfg. destruct (g x w) as [[[]|e] w1]; auto.
Qed.

(** The two nested loops visit [sub_grid]. *)
Lemma nested_loops_sub_grid (start n : Z) (body : Z -> Z -> M unit) w :
  for_each (range start (start + n)) (fun row =>
    for_each (range start (start + n)) (fun col => body row col)) w
  = for_each (sub_grid start n) (fun rc => body rc.1 rc.2) w.
Proof.
  unfold sub_grid. rewrite for_each_bind. apply for_each_ext. intros row w1.
  rewrite for_each_bind. apply for_each_ext. intros col w2.
  simpl. rewrite bind_run. destruct (body row col w2) as [[[]|e] w3]; reflexivity.
Qed.

(** Runs straight-line monadic code on a world given by its fields. *)
Ltac run_monad :=
  cbv beta iota zeta delta
      [mbind M_bind mret M_ret raise print gets modify setBrightness setPixelColor
       show sleep_ms capture_file set_controls
       with_strip with_files with_camera_faults with_cfg with_dirs
       with_camera_exposure log
       cfg strip pixels level leds leds_level camera_exposure camera_faults
       clock dirs files trace tail
       current_brightness current_led_count current_exposure current_color
       current_folder_name set_brightness set_led_count set_exposure set_color
       set_folder_name].

(** ** The LED strip *)

Lemma world_eta (w : world) :
  World (cfg w) (strip w) (camera_exposure w) (camera_faults w) (clock w)
        (dirs w) (files w) (trace w) = w.
Proof. destruct w; reflexivity. Qed.

Lemma for_each_setPixelColor (l : list Z) (c : Z) (w : world) :
  for_each l (fun i => setPixelColor i c) w =
  (Ok tt, with_strip (fun s =>
     NeoPixel (foldl (fun px i => poke i c px) (pixels s) l)
              (level s) (leds s) (leds_level s)) w).
Proof.
  revert w. induction l as [|i l IH]; intros w; simpl.
  - destruct w as [g [px lv ld ll] e f k d fl t]; reflexivity.
  - rewrite bind_run. unfold setPixelColor at 1, modify. rewrite IH.
    destruct w as [g [px lv ld ll] e f k d fl t]; reflexivity.
Qed.

Lemma blank_all (px : list Z) :
  length px = 64%nat ->
  foldl (fun px i => poke i 0 px) px (range 0 (PHYSICAL_GRID_SIZE ^ 2)) = dark.
Proof.
  intros H.
  do 64 (destruct px as [|? px]; [discriminate H|]).
  destruct px; [|discriminate H]. reflexivity.
Qed.

Lemma turn_off_all_leds_spec (w : world) :
  wf_world w -> turn_off_all_leds w = (Ok tt, all_off w).
Proof.
  intros Hwf. unfold turn_off_all_leds. rewrite bind_run.
  change (get_color "off") with 0. rewrite for_each_setPixelColor.
  unfold show, modify, all_off, with_strip, log.
  cbn [strip pixels level leds leds_level cfg camera_exposure camera_faults
       clock dirs files trace].
  rewrite (blank_all _ Hwf). reflexivity.
Qed.

Lemma wf_all_off (w : world) : wf_world (all_off w).
Proof. reflexivity. Qed.

Lemma poke_dark (i c : Z) : 0 <= i < 64 -> poke i c dark = lit i c.
Proof.
  intros Hi. unfold poke, lit.
  replace (length dark) with 64%nat by reflexivity.
  rewrite (proj2 (Z.leb_le 0 i)), (proj2 (Z.ltb_lt i _)) by lia. reflexivity.
Qed.

Lemma poke_lit_off (i c : Z) : 0 <= i < 64 -> poke i 0 (lit i c) = dark.
Proof.
  intros Hi. unfold poke, lit. rewrite length_insert.
  replace (length dark) with 64%nat by reflexivity.
  rewrite (proj2 (Z.leb_le 0 i)), (proj2 (Z.ltb_lt i _)) by lia. simpl.
  rewrite list_insert_insert_eq. apply list_insert_id.
  apply lookup_replicate. split; [reflexivity|lia].
Qed.

Lemma focus_led_on_spec (w : world) :
  wf_world w -> focus_led_on w = (Ok tt, focus_on w).
Proof.
  intros Hwf. unfold focus_led_on.
  rewrite bind_run, (turn_off_all_leds_spec _ Hwf).
  unfold focus_on, all_off, gets, setBrightness, setPixelColor, show, modify; simpl.
  rewrite !bind_run; simpl. rewrite poke_dark by (unfold FOCUS_LED_INDEX; lia).
  reflexivity.
Qed.

Lemma lit_count_dark : lit_count dark = 0%nat.
Proof. reflexivity. Qed.

Lemma filter_replicate_zero (n : nat) :
  filter (fun x : Z => x <> 0) (replicate n 0) = [].
Proof.
  induction n as [|n IH]; simpl; [reflexivity|].
  rewrite filter_cons_False by (intros H; apply H; reflexivity). exact IH.
Qed.

Lemma lit_count_lit (i c : Z) : (lit_count (lit i c) <= 1)%nat.
Proof.
  unfold lit_count, lit, dark.
  destruct (decide (Z.to_nat i < 64)%nat) as [Hlt|Hge].
  - rewrite insert_take_drop by (rewrite length_replicate; exact Hlt).
    rewrite take_replicate, drop_replicate, filter_app, filter_replicate_zero.
    simpl. destruct (decide (c <> 0)).
    + rewrite filter_cons_True by assumption.
      rewrite filter_replicate_zero. simpl. lia.
    + rewrite filter_cons_False by assumption.
      rewrite filter_replicate_zero. simpl. lia.
  - rewrite list_insert_ge by (rewrite length_replicate; lia).
    rewrite filter_replicate_zero. simpl. lia.
Qed.

(** ** One coordinate's turn, and the loop over the plan *)

Lemma index_in_grid (rc : Z * Z) : in_grid rc -> 0 <= index rc.1 rc.2 < 64.
Proof. unfold in_grid, index, PHYSICAL_GRID_SIZE. lia. Qed.

Lemma capture_one_ok (d : string) (rc : Z * Z) (w : world) :
  pixels (strip w) = dark -> in_grid rc ->
  head (camera_faults w) <> Some true ->
  capture_one d rc.1 rc.2 w = (Ok tt, after_coord d rc w).
Proof.
  intros Hpx Hrc Hcam. apply index_in_grid in Hrc.
  destruct w as [g [px lv ld ll] e f k ds fl t]. simpl in Hpx, Hcam. subst px.
  destruct f as [|[] f]; [| exfalso; apply Hcam; reflexivity |];
    unfold capture_one, after_coord, coord_events; run_monad;
    change (get_color "off") with 0;
    rewrite poke_dark, poke_lit_off by exact Hrc;
    rewrite <- ?app_assoc; reflexivity.
Qed.

Lemma capture_one_fails (d : string) (rc : Z * Z) (w : world) :
  pixels (strip w) = dark -> in_grid rc ->
  head (camera_faults w) = Some true ->
  capture_one d rc.1 rc.2 w = (Raise CameraError, failed_coord d rc w).
Proof.
  intros Hpx Hrc Hcam. apply index_in_grid in Hrc.
  destruct w as [g [px lv ld ll] e f k ds fl t]. simpl in Hpx, Hcam. subst px.
  destruct f as [|[] f]; try discriminate Hcam.
  unfold capture_one, failed_coord, failed_events; run_monad.
  rewrite poke_dark by exact Hrc. rewrite <- ?app_assoc. reflexivity.
Qed.

Lemma after_coord_pixels d rc w : pixels (strip (after_coord d rc w)) = dark.
Proof. reflexivity. Qed.

Lemma loop_ok (d : string) (l : list (Z * Z)) (w : world) :
  pixels (strip w) = dark -> Forall in_grid l ->
  true ∉ take (length l) (camera_faults w) ->
  for_each l (fun rc => capture_one d rc.1 rc.2) w = (Ok tt, after_coords d l w).
Proof.
  revert w. induction l as [|rc l IH]; intros w Hpx Hl Hcam; [reflexivity|].
  apply Forall_cons in Hl as [Hrc Hl].
  cbn [for_each]. rewrite bind_run, capture_one_ok; [| assumption..|].
  - unfold after_coords. cbn [foldl]. apply IH; [reflexivity | assumption |].
    change (camera_faults (after_coord d rc w)) with (tail (camera_faults w)).
    destruct (camera_faults w) as [|x f]; simpl in *.
    + rewrite take_nil. apply not_elem_of_nil.
    + intros Hin. apply Hcam. right. exact Hin.
  - destruct (camera_faults w) as [|[] f]; simpl in *; [discriminate| |discriminate].
    intros _. apply Hcam. left.
Qed.

Lemma loop_fails (d : string) (l1 l2 : list (Z * Z)) (rc : Z * Z) (rest : list bool) w :
  pixels (strip w) = dark -> Forall in_grid (l1 ++ rc :: l2) ->
  camera_faults w = replicate (length l1) false ++ true :: rest ->
  for_each (l1 ++ rc :: l2) (fun rc => capture_one d rc.1 rc.2) w
  = (Raise CameraError, failed_coord d rc (after_coords d l1 w)).
Proof.
  revert w. induction l1 as [|x l1 IH]; intros w Hpx Hl Hcam.
  - simpl in *. apply Forall_cons in Hl as [Hrc _].
    rewrite bind_run, capture_one_fails; [reflexivity|assumption..|].
    rewrite Hcam. reflexivity.
  - simpl in Hl. apply Forall_cons in Hl as [Hx Hl].
    cbn [app for_each]. rewrite bind_run, capture_one_ok; [|assumption..|].
    + unfold after_coords. cbn [foldl]. apply IH; [reflexivity|assumption|].
      simpl. rewrite Hcam. reflexivity.
    + rewrite Hcam. discriminate.
Qed.

(** Either the camera works for the next [m] captures, or there is a first
    one on which it fails. *)
Lemma first_fault (m : nat) (faults : list bool) :
  true ∉ take m faults \/
  exists k rest, (k < m)%nat /\ faults = replicate k false ++ true :: rest.
Proof.
  revert faults. induction m as [|m IH]; intros faults.
  - left. rewrite take_0. set_solver.
  - destruct faults as [|[] faults].
    + left. set_solver.
    + right. exists 0%nat, faults. split; [lia|reflexivity].
    + destruct (IH faults) as [Hno | (k & rest & Hk & ->)].
      * left. simpl. intros [Hx|Hx]%elem_of_cons; [discriminate Hx|auto].
      * right. exists (S k), rest. split; [lia|reflexivity].
Qed.

(** ** The plan *)

Lemma range_seqZ (start n : Z) : range start (start + n) = seqZ start n.
Proof. unfold range. f_equal. lia. Qed.

Lemma elem_of_sub_grid (start n r c : Z) :
  (r, c) ∈ sub_grid start n <-> (start <= r < start + n /\ start <= c < start + n).
Proof.
  unfold sub_grid. rewrite range_seqZ. rewrite list_elem_of_bind. split.
  - intros (row & Hin & Hrow). apply list_elem_of_bind in Hin as (col & Hin & Hcol).
    apply list_elem_of_singleton in Hin. injection Hin as -> ->.
    apply elem_of_seqZ in Hrow, Hcol. split; assumption.
  - intros [Hr Hc]. exists r. split; [|apply elem_of_seqZ; exact Hr].
    apply list_elem_of_bind. exists c. split; [|apply elem_of_seqZ; exact Hc].
    apply list_elem_of_singleton. reflexivity.
Qed.

Lemma length_bind_const {A B} (f : A -> list B) (k : nat) (l : list A) :
  (forall x, length (f x) = k) -> length (l ≫= f) = (length l * k)%nat.
Proof.
  intros Hf. induction l as [|x l IH]; [reflexivity|].
  rewrite bind_cons, length_app, Hf, IH. simpl. lia.
Qed.

Lemma length_sub_grid (start n : Z) :
  0 <= n -> length (sub_grid start n) = Z.to_nat (n * n).
Proof.
  intros Hn. unfold sub_grid. rewrite range_seqZ.
  rewrite (length_bind_const _ (Z.to_nat n)).
  - rewrite length_seqZ. lia.
  - intros row. rewrite (length_bind_const _ 1%nat) by reflexivity.
    rewrite length_seqZ. lia.
Qed.

Lemma plan_in_grid (n : Z) : 0 <= n <= 8 -> Forall in_grid (plan_of_side n).
Proof.
  intros Hn. apply Forall_forall. intros [r c] Hin.
  apply elem_of_sub_grid in Hin. unfold in_grid, PHYSICAL_GRID_SIZE in *. simpl.
  assert (0 <= (8 - n) `div` 2) by (apply Z.div_pos; lia).
  assert ((8 - n) `div` 2 <= 8 - n) by (apply Z.div_le_upper_bound; lia).
  lia.
Qed.

Lemma length_plan (n : Z) : 0 <= n -> length (plan_of_side n) = Z.to_nat (n * n).
Proof. apply length_sub_grid. Qed.

(** ** What a sequence of turns leaves behind *)

Lemma after_coords_cons d rc l w :
  after_coords d (rc :: l) w = after_coords d l (after_coord d rc w).
Proof. reflexivity. Qed.

Lemma after_coords_frame d l w :
  cfg (after_coords d l w) = cfg w /\
  camera_exposure (after_coords d l w) = camera_exposure w /\
  clock (after_coords d l w) = clock w /\
  dirs (after_coords d l w) = dirs w /\
  camera_faults (after_coords d l w) = drop (length l) (camera_faults w).
Proof.
  revert w. induction l as [|rc l IH]; intros w.
  - repeat split; reflexivity.
  - rewrite after_coords_cons. destruct (IH (after_coord d rc w)) as (-> & -> & -> & -> & ->).
    repeat split. simpl. destruct (camera_faults w); [|reflexivity].
    simpl. apply drop_nil.
Qed.

Lemma after_coords_files d l w :
  files (after_coords d l w) = list_to_set (frame_path d <$> l) ∪ files w.
Proof.
  revert w. induction l as [|rc l IH]; intros w.
  - simpl. set_solver.
  - rewrite after_coords_cons, IH. simpl. unfold frame_path at 2. set_solver.
Qed.

Lemma after_coords_trace d l w :
  trace (after_coords d l w) =
  trace w ++ concat (coord_events d (current_brightness (cfg w))
                                  (get_color (current_color (cfg w))) <$> l).
Proof.
  revert w. induction l as [|rc l IH]; intros w.
  - simpl. rewrite app_nil_r. reflexivity.
  - rewrite after_coords_cons, IH. cbn [fmap list_fmap concat].
    rewrite app_assoc. reflexivity.
Qed.

Lemma after_coords_pixels d l w :
  pixels (strip w) = dark -> pixels (strip (after_coords d l w)) = dark.
Proof.
  revert w. induction l as [|rc l IH]; intros w Hw; [exact Hw|].
  rewrite after_coords_cons. apply IH. reflexivity.
Qed.

Lemma after_coords_leds d l w :
  leds (strip w) = dark -> leds (strip (after_coords d l w)) = dark.
Proof.
  revert w. induction l as [|rc l IH]; intros w Hw; [exact Hw|].
  rewrite after_coords_cons. apply IH. reflexivity.
Qed.

(** ** The capture sequence as a whole *)

Lemma resolve_save_dir_spec (w : world) :
  resolve_save_dir w = (Ok (save_dir_of w), w).
Proof.
  unfold resolve_save_dir, save_dir_of. rewrite bind_run. unfold gets.
  destruct (current_folder_name (cfg w)) as [[|c s]|]; reflexivity.
Qed.

Lemma makedirs_fresh_or_present (d : string) (w : world) :
  d ∉ files w ->
  makedirs d true w = (Ok tt, log (MakeDirs d) (with_dirs ({[ d ]} ∪ dirs w) w)).
Proof.
  intros Hd. unfold makedirs.
  rewrite bool_decide_eq_false_2 by exact Hd.
  destruct (bool_decide (d ∈ dirs w)) eqn:Hin; [|reflexivity].
  apply bool_decide_eq_true_1 in Hin.
  replace ({[ d ]} ∪ dirs w) with (dirs w) by set_solver.
  unfold with_dirs. rewrite world_eta. reflexivity.
Qed.

Lemma makedirs_clash (d : string) (w : world) :
  d ∈ files w -> makedirs d true w = (Raise FileExistsError, w).
Proof. intros Hd. unfold makedirs. rewrite bool_decide_eq_true_2 by exact Hd. reflexivity. Qed.

Section Run.

Variable float_root : Z -> option Z.

(** The floating-point square root is exact on the squares of 0..8. *)
Hypothesis float_root_exact :
  forall n, 0 <= n <= 8 -> float_root (n * n) = Some n.

Lemma int_pow_half_square (n : Z) (w : world) :
  0 <= n <= 8 -> int_pow_half float_root (n * n) w = (Ok n, w).
Proof.
  intros Hn. unfold int_pow_half.
  rewrite (proj2 (Z.ltb_ge (n * n) 0)) by nia.
  rewrite float_root_exact by exact Hn. reflexivity.
Qed.

(** A run up to the loop over the plan. *)
Lemma capture_sequence_unfold (n : Z) (w : world) :
  wf_world w -> 0 <= n <= 8 -> current_led_count (cfg w) = n * n ->
  save_dir_of w ∉ files w ->
  capture_sequence float_root w =
  match for_each (plan_of_side n)
                 (fun rc => capture_one (save_dir_of w) rc.1 rc.2) (prepared w) with
  | (Ok _, w1) => focus_led_on (log (Print "Capture complete.") w1)
  | (Raise e, w1) => (Raise e, w1)
  end.
Proof.
  intros Hwf Hn Hcount Hd. unfold capture_sequence.
  rewrite bind_run, (turn_off_all_leds_spec _ Hwf).
  rewrite bind_run. unfold gets at 1.
  change (cfg (all_off w)) with (cfg w). rewrite Hcount.
  rewrite bind_run, int_pow_half_square by exact Hn.
  rewrite bind_run, resolve_save_dir_spec.
  change (save_dir_of (all_off w)) with (save_dir_of w).
  rewrite bind_run, makedirs_fresh_or_present by exact Hd.
  rewrite bind_run. unfold print at 1, modify at 1.
  change (dirs (all_off w)) with (dirs w). fold (prepared w).
  rewrite bind_run, nested_loops_sub_grid. fold (plan_of_side n).
  destruct (for_each _ _ _) as [[[]|e] w1]; [|reflexivity].
  rewrite bind_run. reflexivity.
Qed.

(** The run iterates over the plan of [capture_plan]. *)
Lemma capture_sequence_runs_plan (w : world) :
  capture_sequence float_root w =
  (turn_off_all_leds;;
   count ← gets (fun w => current_led_count (cfg w));
   plan ← capture_plan float_root count;
   save_dir ← resolve_save_dir;
   makedirs save_dir true;;
   print ("Saving images to: " +:+ save_dir);;
   for_each plan (fun rc => capture_one save_dir rc.1 rc.2);;
   print "Capture complete.";;
   focus_led_on) w.
Proof.
  unfold capture_sequence, capture_plan. rewrite !bind_run.
  destruct (turn_off_all_leds w) as [[[]|e] w1]; [|reflexivity].
  rewrite !bind_run. cbv beta iota delta [gets]. rewrite !bind_run.
  destruct (int_pow_half float_root _ w1) as [[n|e] w2]; [|reflexivity].
  cbv beta iota delta [mret M_ret]. rewrite !bind_run.
  destruct (resolve_save_dir w2) as [[d|e] w3]; [|reflexivity].
  rewrite !bind_run.
  destruct (makedirs d true w3) as [[[]|e] w4]; [|reflexivity].
  rewrite !bind_run.
  destruct (print _ w4) as [[[]|e] w5]; [|reflexivity].
  rewrite !bind_run, nested_loops_sub_grid. reflexivity.
Qed.

Lemma capture_sequence_dir_clash (n : Z) (w : world) :
  wf_world w -> 0 <= n <= 8 -> current_led_count (cfg w) = n * n ->
  save_dir_of w ∈ files w ->
  capture_sequence float_root w = (Raise FileExistsError, all_off w).
Proof.
  intros Hwf Hn Hcount Hd. unfold capture_sequence.
  rewrite bind_run, (turn_off_all_leds_spec _ Hwf).
  rewrite bind_run. unfold gets at 1.
  change (cfg (all_off w)) with (cfg w). rewrite Hcount.
  rewrite bind_run, int_pow_half_square by exact Hn.
  rewrite bind_run, resolve_save_dir_spec.
  change (save_dir_of (all_off w)) with (save_dir_of w).
  rewrite bind_run, makedirs_clash by exact Hd. reflexivity.
Qed.

Lemma capture_sequence_completes (n : Z) (w : world) :
  wf_world w -> 0 <= n <= 8 -> current_led_count (cfg w) = n * n ->
  save_dir_of w ∉ files w ->
  true ∉ take (Z.to_nat (n * n)) (camera_faults w) ->
  capture_sequence float_root w = (Ok tt, completed n w).
Proof.
  intros Hwf Hn Hcount Hd Hcam.
  rewrite (capture_sequence_unfold n) by assumption.
  rewrite loop_ok.
  - apply focus_led_on_spec. unfold wf_world.
    change (pixels (strip (log _ ?w1))) with (pixels (strip w1)).
    rewrite after_coords_pixels by reflexivity. reflexivity.
  - reflexivity.
  - apply plan_in_grid. exact Hn.
  - rewrite length_plan by lia. exact Hcam.
Qed.

Lemma capture_sequence_aborts (n : Z) (k : nat) (rc : Z * Z) (rest : list bool) w :
  wf_world w -> 0 <= n <= 8 -> current_led_count (cfg w) = n * n ->
  save_dir_of w ∉ files w ->
  plan_of_side n !! k = Some rc ->
  camera_faults w = replicate k false ++ true :: rest ->
  capture_sequence float_root w = (Raise CameraError, aborted n k rc w).
Proof.
  intros Hwf Hn Hcount Hd Hk Hcam.
  rewrite (capture_sequence_unfold n) by assumption.
  pose proof (plan_in_grid n Hn) as Hgrid.
  rewrite <- (take_drop_middle _ _ _ Hk) in Hgrid |- * at 1.
  rewrite (loop_fails _ _ _ _ rest); [reflexivity | reflexivity | exact Hgrid |].
  change (camera_faults (prepared w)) with (camera_faults w).
  rewrite Hcam, length_take_le; [reflexivity|].
  apply lookup_lt_Some in Hk. lia.
Qed.

(** The three ways a run can go. *)
Lemma capture_sequence_cases (n : Z) (w : world) :
  wf_world w -> 0 <= n <= 8 -> current_led_count (cfg w) = n * n ->
  ((save_dir_of w ∈ files w) /\
   capture_sequence float_root w = (Raise FileExistsError, all_off w)) \/
  ((save_dir_of w ∉ files w) /\
   (true ∉ take (Z.to_nat (n * n)) (camera_faults w)) /\
   capture_sequence float_root w = (Ok tt, completed n w)) \/
  (exists k rc rest,
      (save_dir_of w ∉ files w) /\
      plan_of_side n !! k = Some rc /\
      camera_faults w = replicate k false ++ true :: rest /\
      capture_sequence float_root w = (Raise CameraError, aborted n k rc w)).
Proof.
  intros Hwf Hn Hcount.
  destruct (decide (save_dir_of w ∈ files w)) as [Hd|Hd].
  { left. split; [exact Hd|]. apply (capture_sequence_dir_clash n); assumption. }
  right.
  destruct (first_fault (Z.to_nat (n * n)) (camera_faults w))
    as [Hno | (k & rest & Hk & Hcam)].
  - left. split; [exact Hd|]. split; [exact Hno|].
    apply capture_sequence_completes; assumption.
  - right. rewrite <- (length_plan n) in Hk by lia.
    destruct (lookup_lt_is_Some_2 _ _ Hk) as [rc Hrc].
    exists k, rc, rest. repeat split; try assumption.
    apply (capture_sequence_aborts n k rc rest); assumption.
Qed.

(** A run that returns has gone the second way. *)
Lemma capture_sequence_completed_inv (n : Z) (w w' : world) :
  wf_world w -> 0 <= n <= 8 -> current_led_count (cfg w) = n * n ->
  capture_sequence float_root w = (Ok tt, w') ->
  w' = completed n w /\ (save_dir_of w ∉ files w) /\
  (true ∉ take (Z.to_nat (n * n)) (camera_faults w)).
Proof.
  intros Hwf Hn Hcount Hrun.
  destruct (capture_sequence_cases n w Hwf Hn Hcount)
    as [[_ H] | [(Hd & Hno & H) | (k & rc & rest & _ & _ & _ & H)]];
    rewrite H in Hrun; try discriminate Hrun.
  injection Hrun as <-. auto.
Qed.

End Run.

(** ** Traces of the three outcomes *)

Lemma completed_trace (n : Z) (w : world) :
  let d := save_dir_of w in
  let b := current_brightness (cfg w) in
  let c := get_color (current_color (cfg w)) in
  exists lv,
    trace (completed n w) =
    trace w ++ prepare_events w
      ++ concat (coord_events d b c <$> plan_of_side n)
      ++ [Print "Capture complete."; Show dark lv; Show (lit FOCUS_LED_INDEX c) b].
Proof.
  cbv zeta.
  exists (level (strip (after_coords (save_dir_of w) (plan_of_side n) (prepared w)))).
  unfold completed, focus_on, all_off.
  cbn [trace log with_strip cfg strip level].
  destruct (after_coords_frame (save_dir_of w) (plan_of_side n) (prepared w)) as (-> & _).
  rewrite after_coords_trace. unfold prepared, all_off, prepare_events.
  cbn [trace log with_strip with_dirs cfg strip level].
  rewrite <- !app_assoc. reflexivity.
Qed.

Lemma aborted_trace (n : Z) (k : nat) (rc : Z * Z) (w : world) :
  let d := save_dir_of w in
  let b := current_brightness (cfg w) in
  let c := get_color (current_color (cfg w)) in
  trace (aborted n k rc w) =
  trace w ++ prepare_events w
    ++ concat (coord_events d b c <$> take k (plan_of_side n))
    ++ failed_events d b c rc.
Proof.
  cbv zeta. unfold aborted, failed_coord. cbn [trace cfg].
  destruct (after_coords_frame (save_dir_of w) (take k (plan_of_side n)) (prepared w))
    as (-> & _).
  rewrite after_coords_trace. unfold prepared, all_off, prepare_events.
  cbn [trace log with_strip with_dirs cfg strip level].
  rewrite <- !app_assoc. reflexivity.
Qed.

Lemma elem_of_concat {A} (x : A) (ls : list (list A)) :
  x ∈ concat ls <-> exists l, x ∈ l /\ l ∈ ls.
Proof.
  induction ls as [|l ls IH]; simpl.
  - split; [intros H%elem_of_nil; destruct H|intros (l & _ & H%elem_of_nil); destruct H].
  - rewrite elem_of_app, IH. split.
    + intros [H|(l' & H1 & H2)]; [exists l|exists l']; split; auto; [left|right; exact H2].
    + intros (l' & H1 & [->|H2]%elem_of_cons); [left; exact H1|right; eauto].
Qed.

Lemma frames_of_app (l1 l2 : list event) :
  frames_of (l1 ++ l2) = frames_of l1 ++ frames_of l2.
Proof. apply omap_app. Qed.

Lemma frames_of_coords d b c (l : list (Z * Z)) :
  frames_of (concat (coord_events d b c <$> l)) =
  concat ((fun rc => [lit (index rc.1 rc.2) c; dark]) <$> l).
Proof.
  induction l as [|rc l IH]; [reflexivity|].
  cbn [fmap list_fmap concat]. rewrite frames_of_app, IH. reflexivity.
Qed.

Lemma captured_app (l1 l2 : list event) :
  captured (l1 ++ l2) = captured l1 ++ captured l2.
Proof. apply omap_app. Qed.

Lemma captured_coords d b c (l : list (Z * Z)) :
  captured (concat (coord_events d b c <$> l)) = frame_path d <$> l.
Proof.
  induction l as [|rc l IH]; [reflexivity|].
  cbn [fmap list_fmap concat]. rewrite captured_app, IH. reflexivity.
Qed.

Lemma one_at_a_time_coords (c : Z) (l : list (Z * Z)) (fs : list (list Z)) :
  one_at_a_time dark fs ->
  one_at_a_time dark
    (concat ((fun rc => [lit (index rc.1 rc.2) c; dark]) <$> l) ++ fs).
Proof.
  intros Hfs. induction l as [|rc l IH]; [exact Hfs|].
  cbn [fmap list_fmap concat app one_at_a_time].
  split; [apply lit_count_lit|]. split; [left; reflexivity|].
  split; [rewrite lit_count_dark; lia|]. split; [right; reflexivity|].
  exact IH.
Qed.

(** ** Facts about plans shared by the statements below *)

Lemma exact_root_ok (n : Z) : 0 <= n <= 8 -> exact_root (n * n) = Some n.
Proof. intros Hn. unfold exact_root. f_equal. apply Z.sqrt_square. lia. Qed.

Lemma side_cases (n : Z) :
  0 <= n <= 8 ->
  n = 0 \/ n = 1 \/ n = 2 \/ n = 3 \/ n = 4 \/ n = 5 \/ n = 6 \/ n = 7 \/ n = 8.
Proof. lia. Qed.

Ltac sorted_by_computation :=
  match goal with
  | |- Sorted ?R ?l => let l' := eval vm_compute in l in change (Sorted R l')
  end;
  repeat first
    [ apply Sorted_nil
    | apply Sorted_cons
    | apply HdRel_nil
    | apply HdRel_cons; unfold row_major_lt; simpl; lia ].

Lemma plan_sorted (n : Z) : 0 <= n <= 8 -> Sorted row_major_lt (plan_of_side n).
Proof.
  intros Hn.
  destruct (side_cases n Hn) as [->|[->|[->|[->|[->|[->|[->|[->| ->]]]]]]]];
    sorted_by_computation.
Qed.

Lemma plan_NoDup (n : Z) : NoDup (plan_of_side n).
Proof.
  unfold plan_of_side, sub_grid. apply NoDup_bind.
  - intros r1 r2 [r c] _ _ H1 H2.
    apply list_elem_of_bind in H1 as (c1 & H1 & _), H2 as (c2 & H2 & _).
    apply list_elem_of_singleton in H1, H2. congruence.
  - intros r _. apply NoDup_bind.
    + intros c1 c2 [r' c] _ _ H1 H2.
      apply list_elem_of_singleton in H1, H2. congruence.
    + intros c _. apply NoDup_singleton.
    + apply NoDup_seqZ.
  - apply NoDup_seqZ.
Qed.

Lemma grid_is_whole_plan (rc : Z * Z) : in_grid rc -> rc ∈ plan_of_side 8.
Proof.
  destruct rc as [r c]. unfold in_grid. simpl. intros H.
  apply elem_of_sub_grid. change ((PHYSICAL_GRID_SIZE - 8) `div` 2) with 0. lia.
Qed.

(** The file name of a grid cell reads back as the cell. *)
Lemma coord_of_frame_name (rc : Z * Z) :
  in_grid rc -> coord_of_name (frame_name rc.1 rc.2) = Some rc.
Proof.
  intros Hrc. apply grid_is_whole_plan in Hrc.
  assert (forallb (fun rc => bool_decide (coord_of_name (frame_name rc.1 rc.2) = Some rc))
                  (plan_of_side 8) = true) as Hall by (vm_compute; reflexivity).
  rewrite forallb_forall in Hall.
  apply list_elem_of_In, Hall, bool_decide_eq_true_1 in Hrc. exact Hrc.
Qed.

Lemma frame_name_inj (p q : Z * Z) :
  in_grid p -> in_grid q -> frame_name p.1 p.2 = frame_name q.1 q.2 -> p = q.
Proof.
  intros Hp Hq Heq. apply coord_of_frame_name in Hp, Hq.
  rewrite Heq in Hp. congruence.
Qed.

Lemma append_assoc (a b c : string) : (a +:+ b) +:+ c = a +:+ b +:+ c.
Proof.
  induction a as [|x a IH]; [reflexivity|].
  change (String x ((a +:+ b) +:+ c) = String x (a +:+ b +:+ c)).
  rewrite IH. reflexivity.
Qed.

(** [os.path.join] with a frame's file name only extends the directory. *)
Lemma path_join_frame (d : string) (r c : Z) :
  path_join d (frame_name r c) =
  (if String.eqb d "" || endswith d "/" then d else d +:+ "/") +:+ frame_name r c.
Proof.
  unfold path_join. change (startswith (frame_name r c) "/") with false.
  cbv iota. destruct (String.eqb d "" || endswith d "/"); [reflexivity|].
  symmetry. apply append_assoc.
Qed.

Lemma frame_path_inj (d : string) (p q : Z * Z) :
  in_grid p -> in_grid q -> frame_path d p = frame_path d q -> p = q.
Proof.
  intros Hp Hq. unfold frame_path. rewrite !path_join_frame.
  intros Heq. apply (inj (String.app _)) in Heq.
  apply frame_name_inj; assumption.
Qed.

Lemma frame_paths_NoDup (d : string) (n : Z) :
  0 <= n <= 8 -> NoDup (frame_path d <$> plan_of_side n).
Proof.
  intros Hn. apply NoDup_fmap_2_strong; [|apply plan_NoDup].
  pose proof (plan_in_grid n Hn) as Hgrid. rewrite Forall_forall in Hgrid.
  intros p q Hp Hq. apply frame_path_inj; auto.
Qed.

(** ** The capture run: plan, order, frames, LEDs *)

Section CaptureRun.

Variable float_root : Z -> option Z.

Hypothesis float_root_exact :
  forall n, 0 <= n <= 8 -> float_root (n * n) = Some n.


(** C5: in a run that completes, each coordinate's turn is, in this order:
    light its LED and commit, pause 300 ms, capture the image file, turn
    the LED off and commit, pause 100 ms; and the turns follow one another
    in the row-major order of the plan, nothing in between. *)
Theorem capture_run_order (n : Z) (w w' : world) :
  wf_world w -> 0 <= n <= 8 -> current_led_count (cfg w) = n * n ->
  capture_sequence float_root w = (Ok tt, w') ->
  let d := save_dir_of w in
  let b := current_brightness (cfg w) in
  let c := get_color (current_color (cfg w)) in
  let plan := sub_grid ((8 - n) `div` 2) n in
  let turn (rc : Z * Z) :=
    [ Print ("Lighting LED at row " +:+ pretty rc.1 +:+ ", col " +:+ pretty rc.2
             +:+ " (index " +:+ pretty (index rc.1 rc.2) +:+ ")");
      Show (lit (index rc.1 rc.2) c) b;
      Sleep 300;
      Capture (path_join d (frame_name rc.1 rc.2)) true;
      Print ("Captured " +:+ path_join d (frame_name rc.1 rc.2));
      Show dark b;
      Sleep 100 ] in
  Sorted row_major_lt plan /\
  exists lv lv',
    trace w' =
    trace w
      ++ [Show dark lv; MakeDirs d; Print ("Saving images to: " +:+ d)]
      ++ concat (turn <$> plan)
      ++ [Print "Capture complete."; Show dark lv';
          Show (lit FOCUS_LED_INDEX c) b].
Proof.
  intros Hwf Hn Hcount Hrun. cbv zeta.
  apply (capture_sequence_completed_inv float_root float_root_exact n) in Hrun
    as (-> & _ & _); try assumption.
  split; [apply plan_sorted; exact Hn|].
  destruct (completed_trace n w) as (lv' & Htrace).
  exists (level (strip w)), lv'. exact Htrace.
Qed.

(** C4: throughout a capture run, whichever way it ends, the run first
    shows an all-dark frame, and from then on every frame it latches has at
    most one LED on and, of any two frames in a row, one is all dark: the
    LED lit before is off before the next one is lit. The LEDs show the
    last frame latched. *)
Theorem one_led_at_a_time (n : Z) (w w' : world) (r : result unit) :
  wf_world w -> 0 <= n <= 8 -> current_led_count (cfg w) = n * n ->
  capture_sequence float_root w = (r, w') ->
  exists lv evs,
    trace w' = trace w ++ Show dark lv :: evs /\
    one_at_a_time dark (frames_of evs) /\
    last (dark :: frames_of evs) = Some (leds (strip w')).
Proof.
  intros Hwf Hn Hcount Hrun.
  destruct (capture_sequence_cases float_root float_root_exact n w Hwf Hn Hcount)
    as [[_ H] | [(_ & _ & H) | (k & rc & rest & _ & _ & _ & H)]];
    rewrite H in Hrun; injection Hrun as <- <-; exists (level (strip w)).
  - exists []. split; [reflexivity|]. split; [exact I|reflexivity].
  - destruct (completed_trace n w) as (lv' & ->).
    exists (tail (prepare_events w) ++
            concat (coord_events (save_dir_of w) (current_brightness (cfg w))
                      (get_color (current_color (cfg w))) <$> plan_of_side n) ++
            [Print "Capture complete."; Show dark lv';
             Show (lit FOCUS_LED_INDEX (get_color (current_color (cfg w))))
                  (current_brightness (cfg w))]).
    split; [reflexivity|].
    rewrite !frames_of_app, frames_of_coords.
    change (frames_of (tail (prepare_events w))) with (@nil (list Z)).
    change (frames_of [Print "Capture complete."; Show dark lv'; Show ?f ?l])
      with [dark; f].
    rewrite app_nil_l. split.
    + apply one_at_a_time_coords. cbn [one_at_a_time].
      split; [rewrite lit_count_dark; lia|]. split; [left; reflexivity|].
      split; [apply lit_count_lit|]. split; [left; reflexivity|exact I].
    + rewrite app_comm_cons, last_app_cons. unfold completed, focus_on.
      cbn [strip leds log with_strip cfg last].
      destruct (after_coords_frame (save_dir_of w) (plan_of_side n) (prepared w))
        as (-> & _).
      reflexivity.
  - rewrite aborted_trace.
    exists (tail (prepare_events w) ++
            concat (coord_events (save_dir_of w) (current_brightness (cfg w))
                      (get_color (current_color (cfg w)))
                      <$> take k (plan_of_side n)) ++
            failed_events (save_dir_of w) (current_brightness (cfg w))
                          (get_color (current_color (cfg w))) rc).
    split; [reflexivity|].
    rewrite !frames_of_app, frames_of_coords.
    change (frames_of (tail (prepare_events w))) with (@nil (list Z)).
    change (frames_of (failed_events ?d ?b ?c rc)) with [lit (index rc.1 rc.2) c].
    rewrite app_nil_l. split.
    + apply one_at_a_time_coords. cbn [one_at_a_time].
      split; [apply lit_count_lit|]. split; [left; reflexivity|exact I].
    + rewrite app_comm_cons, last_app_cons. unfold aborted, failed_coord.
      cbn [strip leds cfg last].
      destruct (after_coords_frame (save_dir_of w) (take k (plan_of_side n))
                  (prepared w)) as (-> & _).
      reflexivity.
Qed.

(** C6: a run that completes captures exactly count frames, one per
    coordinate of the plan, in plan order, none twice and none missing;
    the frame of (row, col) is written to
    os.path.join(folder, "led_r<row>_c<col>.jpg"), the files are on disk
    afterwards, and the file name reads back as (row, col). *)
Theorem frames_match_plan (n : Z) (w w' : world) :
  wf_world w -> 0 <= n <= 8 -> current_led_count (cfg w) = n * n ->
  capture_sequence float_root w = (Ok tt, w') ->
  let d := save_dir_of w in
  let plan := sub_grid ((8 - n) `div` 2) n in
  let path (rc : Z * Z) :=
    path_join d ("led_r" +:+ pretty rc.1 +:+ "_c" +:+ pretty rc.2 +:+ ".jpg") in
  exists evs,
    trace w' = trace w ++ evs /\
    captured evs = path <$> plan /\
    (forall p, Capture p false ∉ evs) /\
    length (captured evs) = Z.to_nat (current_led_count (cfg w)) /\
    NoDup plan /\
    NoDup (captured evs) /\
    files w' = list_to_set (captured evs) ∪ files w /\
    (forall rc, rc ∈ plan ->
       coord_of_name ("led_r" +:+ pretty rc.1 +:+ "_c" +:+ pretty rc.2 +:+ ".jpg")
       = Some rc).
Proof.
  intros Hwf Hn Hcount Hrun. cbv zeta.
  apply (capture_sequence_completed_inv float_root float_root_exact n) in Hrun
    as (-> & _ & _); try assumption.
  destruct (completed_trace n w) as (lv' & Htrace).
  change (sub_grid ((8 - n) `div` 2) n) with (plan_of_side n).
  change (fun rc : Z * Z => path_join (save_dir_of w)
            ("led_r" +:+ pretty rc.1 +:+ "_c" +:+ pretty rc.2 +:+ ".jpg"))
    with (frame_path (save_dir_of w)).
  eexists. split; [exact Htrace|].
  assert (captured (prepare_events w
            ++ concat (coord_events (save_dir_of w) (current_brightness (cfg w))
                         (get_color (current_color (cfg w))) <$> plan_of_side n)
            ++ [Print "Capture complete."; Show dark lv';
                Show (lit FOCUS_LED_INDEX (get_color (current_color (cfg w))))
                     (current_brightness (cfg w))])
          = frame_path (save_dir_of w) <$> plan_of_side n) as Hcap.
  { rewrite !captured_app, captured_coords. cbn. apply app_nil_r. }
  rewrite Hcap.
  split; [reflexivity|]. split; [|split; [|split; [|split; [|split]]]].
  - intros p Hin. rewrite !elem_of_app in Hin. destruct Hin as [Hin|[Hin|Hin]].
    + unfold prepare_events in Hin.
      repeat (apply elem_of_cons in Hin as [Hin|Hin]; [discriminate Hin|]).
      apply elem_of_nil in Hin. exact Hin.
    + apply elem_of_concat in Hin as (evs & Hin & Hevs).
      apply list_elem_of_fmap in Hevs as (rc & -> & _). unfold coord_events in Hin.
      repeat (apply elem_of_cons in Hin as [Hin|Hin]; [discriminate Hin|]).
      apply elem_of_nil in Hin. exact Hin.
    + repeat (apply elem_of_cons in Hin as [Hin|Hin]; [discriminate Hin|]).
      apply elem_of_nil in Hin. exact Hin.
  - rewrite length_fmap, Hcount. apply length_plan. lia.
  - apply plan_NoDup.
  - apply frame_paths_NoDup. exact Hn.
  - unfold completed, focus_on, all_off. cbn [files log with_strip].
    rewrite after_coords_files. reflexivity.
  - intros rc Hrc. apply coord_of_frame_name.
    pose proof (plan_in_grid n Hn) as Hgrid. rewrite Forall_forall in Hgrid. auto.
Qed.

End CaptureRun.

(** ** Dispatch of a line to its handler *)

Lemma startswith_inv (u p : string) :
  startswith u p = true -> exists rest, u = p +:+ rest.
Proof.
  unfold startswith. revert u. induction p as [|a p IH]; intros u H.
  - exists u. reflexivity.
  - destruct u as [|b u]; [discriminate H|]. simpl in H.
    destruct (ascii_dec a b) as [->|]; [|discriminate H].
    destruct (IH u H) as [rest ->]. exists rest. reflexivity.
Qed.

Lemma not_exit_quit (u : string) :
  u <> "exit" -> u <> "quit" -> bool_decide (u ∈ ["exit"; "quit"]) = false.
Proof.
  intros H1 H2. apply bool_decide_eq_false_2.
  intros [->|[->|H]%elem_of_cons]%elem_of_cons; [congruence..|].
  apply elem_of_nil in H. exact H.
Qed.

Lemma startswith_app (p rest : string) : startswith (p +:+ rest) p = true.
Proof.
  unfold startswith. induction p as [|a p IH]; simpl.
  - destruct rest; reflexivity.
  - destruct (ascii_dec a a) as [_|Hne]; [exact IH|congruence].
Qed.

(** Decides the tests of the chain on a line whose first characters are
    known. *)
Ltac route :=
  unfold handle_input;
  rewrite not_exit_quit by discriminate;
  repeat match goal with
         | |- context [startswith (?p +:+ ?rest) ?p] => rewrite (startswith_app p rest)
         | |- context [startswith ?u ?p] => change (startswith u p) with false
         end;
  reflexivity.

Section Dispatch.

Variable float_root : Z -> option Z.

Lemma route_brightness (u : string) :
  startswith u "brightness" = true ->
  handle_input float_root u = (cmd_brightness u;; mret Continue).
Proof. intros [rest ->]%startswith_inv. route. Qed.

Lemma route_leds (u : string) :
  startswith u "leds" = true ->
  handle_input float_root u = (cmd_leds float_root u;; mret Continue).
Proof. intros [rest ->]%startswith_inv. route. Qed.

Lemma route_exposure (u : string) :
  startswith u "exposure" = true ->
  handle_input float_root u = (cmd_exposure u;; mret Continue).
Proof. intros [rest ->]%startswith_inv. route. Qed.

Lemma route_color (u : string) :
  startswith u "color" = true ->
  handle_input float_root u = (cmd_color u;; mret Continue).
Proof. intros [rest ->]%startswith_inv. route. Qed.

Lemma route_folder (u : string) :
  startswith u "folder" = true ->
  handle_input float_root u = (cmd_folder u;; mret Continue).
Proof. intros [rest ->]%startswith_inv. route. Qed.


Lemma route_unknown (u : string) :
  u <> "exit" -> u <> "quit" -> u <> "capture" ->
  startswith u "brightness" = false -> startswith u "leds" = false ->
  startswith u "exposure" = false -> startswith u "color" = false ->
  startswith u "folder" = false ->
  handle_input float_root u = (print "Unknown command.";; mret Continue).
Proof.
  intros H1 H2 H3 Hb Hl He Hc Hf. unfold handle_input.
  rewrite not_exit_quit, Hb, Hl, He, Hc, Hf by assumption.
  rewrite (proj2 (String.eqb_neq u "capture")) by exact H3. reflexivity.
Qed.

End Dispatch.

(** ** Operations on the hardware keep the globals and the strip length *)

Create HintDb keeps.

Lemma keeps_ret {A} (a : A) : keeps_shape (mret a).
Proof. intros w. reflexivity. Qed.

Lemma keeps_raise {A} (e : exn) : keeps_shape (@raise A e).
Proof. intros w. reflexivity. Qed.

Lemma keeps_gets {A} (f : world -> A) : keeps_shape (gets f).
Proof. intros w. reflexivity. Qed.

Lemma keeps_modify (f : world -> world) :
  (forall w, shape (f w) = shape w) -> keeps_shape (modify f).
Proof. intros Hf w. apply Hf. Qed.

Lemma keeps_bind {A B} (m : M A) (k : A -> M B) :
  keeps_shape m -> (forall a, keeps_shape (k a)) -> keeps_shape (m ≫= k).
Proof.
  intros Hm Hk w. rewrite bind_run. specialize (Hm w).
  destruct (m w) as [[a|e] w1]; simpl in *; [|exact Hm].
  rewrite Hk. exact Hm.
Qed.

Lemma keeps_for_each {A} (l : list A) (body : A -> M unit) :
  (forall x, keeps_shape (body x)) -> keeps_shape (for_each l body).
Proof.
  intros Hbody. induction l as [|x l IH]; [apply keeps_ret|].
  simpl. apply keeps_bind; [apply Hbody|intros _; exact IH].
Qed.

Lemma keeps_try_except {A} (body handler : M A) :
  keeps_shape body -> keeps_shape handler -> keeps_shape (try_except body handler).
Proof.
  intros Hb Hh w. unfold try_except. specialize (Hb w).
  destruct (body w) as [[a|e] w1]; simpl in *; [exact Hb|].
  rewrite Hh. exact Hb.
Qed.

Lemma keeps_print (s : string) : keeps_shape (print s).
Proof. intros w. reflexivity. Qed.

Lemma keeps_sleep (ms : Z) : keeps_shape (sleep_ms ms).
Proof. intros w. reflexivity. Qed.

Lemma length_poke (i c : Z) (px : list Z) : length (poke i c px) = length px.
Proof. unfold poke. destruct (_ && _); [apply length_insert|reflexivity]. Qed.

Lemma keeps_setPixelColor (i c : Z) : keeps_shape (setPixelColor i c).
Proof. intros w. unfold shape. simpl. rewrite length_poke. reflexivity. Qed.

Lemma keeps_setBrightness (b : Z) : keeps_shape (setBrightness b).
Proof. intros w. reflexivity. Qed.

Lemma keeps_show : keeps_shape show.
Proof. intros w. reflexivity. Qed.

Lemma keeps_capture_file (path : string) : keeps_shape (capture_file path).
Proof. intros w. unfold capture_file. destruct (camera_faults w) as [|[] f]; reflexivity. Qed.

Lemma keeps_set_controls (e : Z) : keeps_shape (set_controls e).
Proof. intros w. reflexivity. Qed.

Lemma keeps_makedirs (path : string) (ok : bool) : keeps_shape (makedirs path ok).
Proof.
  intros w. unfold makedirs.
  destruct (bool_decide (path ∈ files w)); [reflexivity|].
  destruct (bool_decide (path ∈ dirs w)); [destruct ok|]; reflexivity.
Qed.

Global Hint Resolve keeps_ret keeps_raise keeps_gets keeps_print keeps_sleep
  keeps_setPixelColor keeps_setBrightness keeps_show keeps_capture_file
  keeps_set_controls keeps_makedirs : keeps.

Ltac keeps :=
  repeat (cbv zeta;
          lazymatch goal with
          | |- keeps_shape (for_each _ _) => apply keeps_for_each; intros ?
          | |- keeps_shape (mbind _ _) => apply keeps_bind; [|intros ?]
          | |- _ => solve [auto with keeps]
          end).

Lemma keeps_turn_off_all_leds : keeps_shape turn_off_all_leds.
Proof. unfold turn_off_all_leds. keeps. Qed.

Global Hint Resolve keeps_turn_off_all_leds : keeps.

Lemma keeps_focus_led_on : keeps_shape focus_led_on.
Proof. unfold focus_led_on. keeps. Qed.

Lemma keeps_capture_one d r c : keeps_shape (capture_one d r c).
Proof. unfold capture_one. keeps. Qed.

Lemma keeps_resolve_save_dir : keeps_shape resolve_save_dir.
Proof.
  unfold resolve_save_dir. apply keeps_bind; [auto with keeps|].
  intros [[|c s]|]; keeps.
Qed.

Lemma keeps_int_pow_half float_root v : keeps_shape (int_pow_half float_root v).
Proof.
  unfold int_pow_half. destruct (v <? 0); [auto with keeps|].
  destruct (float_root v); auto with keeps.
Qed.

Global Hint Resolve keeps_focus_led_on keeps_capture_one keeps_resolve_save_dir
  keeps_int_pow_half : keeps.

Lemma keeps_capture_sequence float_root : keeps_shape (capture_sequence float_root).
Proof. unfold capture_sequence. keeps. Qed.

Lemma keeps_cleanup : keeps_shape cleanup.
Proof. unfold cleanup. keeps. Qed.

Lemma keeps_startup : keeps_shape startup.
Proof. unfold startup. keeps. Qed.

Lemma shape_cfg (w w' : world) : shape w' = shape w -> cfg w' = cfg w.
Proof. unfold shape. congruence. Qed.

Lemma shape_wf (w w' : world) : shape w' = shape w -> wf_world w -> wf_world w'.
Proof. unfold shape, wf_world. congruence. Qed.

(** ** The command handlers *)

Lemma read_int_some {A} (u : string) (v : Z) (k : Z -> M A) (w : world) :
  numeric_arg u = Some v ->
  (tok ← item (split u) 1; val ← int_of tok; k val) w = k v w.
Proof.
  unfold numeric_arg, first_arg, item. intros H.
  destruct (split u !! 1%nat) as [tok|]; [|discriminate H]. simpl in H.
  rewrite bind_run. cbn [mret M_ret]. rewrite bind_run.
  unfold int_of. rewrite H. reflexivity.
Qed.

Lemma read_int_none {A} (u : string) (k : Z -> M A) (w : world) :
  numeric_arg u = None ->
  exists e, (tok ← item (split u) 1; val ← int_of tok; k val) w = (Raise e, w).
Proof.
  unfold numeric_arg, first_arg, item. intros H. rewrite bind_run.
  destruct (split u !! 1%nat) as [tok|]; [|exists IndexError; reflexivity].
  simpl in H. cbn [mret M_ret]. rewrite bind_run. unfold int_of. rewrite H.
  exists ValueError. reflexivity.
Qed.

Lemma try_except_raise {A} (body handler : M A) (e : exn) (w w1 : world) :
  body w = (Raise e, w1) -> try_except body handler w = handler w1.
Proof. intros H. unfold try_except. rewrite H. reflexivity. Qed.

Lemma try_except_ok {A} (body handler : M A) (a : A) (w w1 : world) :
  body w = (Ok a, w1) -> try_except body handler w = (Ok a, w1).
Proof. intros H. unfold try_except. rewrite H. reflexivity. Qed.

Lemma try_except_read_none {A} (u : string) (k : Z -> M A) (handler : M A) w :
  numeric_arg u = None ->
  try_except (tok ← item (split u) 1; val ← int_of tok; k val) handler w = handler w.
Proof.
  intros H. destruct (read_int_none u k w H) as [e He].
  apply (try_except_raise _ _ e). exact He.
Qed.



Lemma cmd_brightness_ok (u : string) (v : Z) (w : world) :
  wf_world w -> numeric_arg u = Some v -> 0 <= v <= 255 ->
  cmd_brightness u w = (Ok tt, focus_on (with_cfg (set_brightness v) w)).
Proof.
  intros Hwf H Hv. unfold cmd_brightness. apply try_except_ok.
  rewrite (read_int_some u v) by exact H.
  rewrite (proj2 (Z.leb_le 0 v)), (proj2 (Z.leb_le v 255)) by lia.
  cbn [andb]. rewrite bind_run. cbn [modify]. apply focus_led_on_spec. exact Hwf.
Qed.

Lemma cmd_exposure_usage (u : string) (w : world) :
  numeric_arg u = None ->
  cmd_exposure u w = (Ok tt, log (Print "Usage: exposure <μs>") w).
Proof.
  intros H. unfold cmd_exposure.
  rewrite try_except_read_none by exact H. reflexivity.
Qed.


Lemma cmd_color_ok (u name : string) (w : world) :
  wf_world w -> first_arg u = Some name ->
  name ∈ ["red"; "green"; "blue"; "white"] ->
  cmd_color u w =
  (Ok tt, log (Print ("Color set to " +:+ name))
              (focus_on (with_cfg (set_color name) w))).
Proof.
  unfold first_arg. intros Hwf H Hname. unfold cmd_color. apply try_except_ok.
  rewrite bind_run. unfold item. rewrite H. cbn [mret M_ret].
  rewrite bool_decide_eq_true_2 by exact Hname.
  rewrite bind_run. cbn [modify]. rewrite bind_run.
  rewrite focus_led_on_spec by exact Hwf. reflexivity.
Qed.


Section Leds.

Variable float_root : Z -> option Z.

Lemma cmd_leds_usage (u : string) (w : world) :
  numeric_arg u = None ->
  cmd_leds float_root u w = (Ok tt, log (Print "Usage: leds <value>") w).
Proof.
  intros H. unfold cmd_leds.
  rewrite try_except_read_none by exact H. reflexivity.
Qed.

(** A negative count: [int()] of a complex number raises, the bare
    [except] answers with the usage line. *)
Lemma cmd_leds_negative (u : string) (v : Z) (w : world) :
  numeric_arg u = Some v -> v < 0 ->
  cmd_leds float_root u w = (Ok tt, log (Print "Usage: leds <value>") w).
Proof.
  intros H Hv. unfold cmd_leds.
  erewrite try_except_raise; [reflexivity|].
  rewrite (read_int_some u v) by exact H. rewrite bind_run.
  unfold int_pow_half. rewrite (proj2 (Z.ltb_lt v 0)) by exact Hv. reflexivity.
Qed.

(** Whatever the argument, the handler either leaves the world as it was
    but for one printed line, or stores the square of some [n <= 8]. *)
Lemma cmd_leds_outcome (u : string) (w : world) :
  (exists msg, cmd_leds float_root u w = (Ok tt, log (Print msg) w) /\
               msg ∈ ["Usage: leds <value>"; "Must be square number ≤ 64."]) \/
  (exists n, float_root (n * n) = Some n /\ n <= 8 /\
             cmd_leds float_root u w =
             (Ok tt, log (Print ("LED grid for capture: " +:+ pretty (n * n)))
                         (with_cfg (set_led_count (n * n)) w))).
Proof.
  destruct (numeric_arg u) as [v|] eqn:Harg.
  2:{ left. eexists. split; [apply cmd_leds_usage; exact Harg|]. left. }
  destruct (Z.ltb_spec v 0) as [Hneg|Hpos].
  { left. eexists. split; [apply (cmd_leds_negative u v); assumption|]. left. }
  unfold cmd_leds, try_except. rewrite (read_int_some u v) by exact Harg.
  rewrite bind_run. unfold int_pow_half.
  rewrite (proj2 (Z.ltb_ge v 0)) by exact Hpos.
  destruct (float_root v) as [n|] eqn:Hroot.
  2:{ left. eexists. split; [reflexivity|]. left. }
  cbn [mret M_ret].
  destruct ((n * n =? v) && (n <=? PHYSICAL_GRID_SIZE)) eqn:Hguard.
  - apply andb_true_iff in Hguard as [Hsq%Z.eqb_eq Hle%Z.leb_le]. subst v.
    right. exists n. split; [exact Hroot|]. split; [exact Hle|]. reflexivity.
  - left. eexists. split; [reflexivity|]. right. left.
Qed.

Hypothesis float_root_exact :
  forall n, 0 <= n <= 8 -> float_root (n * n) = Some n.

Lemma cmd_leds_square (u : string) (n : Z) (w : world) :
  numeric_arg u = Some (n * n) -> 0 <= n <= 8 ->
  cmd_leds float_root u w =
  (Ok tt, log (Print ("LED grid for capture: " +:+ pretty (n * n)))
              (with_cfg (set_led_count (n * n)) w)).
Proof.
  intros Harg Hn. unfold cmd_leds. apply try_except_ok.
  rewrite (read_int_some u (n * n)) by exact Harg.
  rewrite bind_run, (int_pow_half_square float_root float_root_exact) by exact Hn.
  rewrite Z.eqb_refl, (proj2 (Z.leb_le n PHYSICAL_GRID_SIZE))
    by (unfold PHYSICAL_GRID_SIZE; lia).
  reflexivity.
Qed.

(** Counts that are not the square of some 0..8 are turned down. *)
Lemma cmd_leds_rejects (u : string) (v : Z) (w : world) :
  (forall n, float_root v = Some n -> 0 <= n) ->
  numeric_arg u = Some v -> ~ square_count v ->
  exists msg, cmd_leds float_root u w = (Ok tt, log (Print msg) w) /\
              msg ∈ ["Usage: leds <value>"; "Must be square number ≤ 64."].
Proof.
  intros Hnonneg Harg Hv.
  unfold cmd_leds, try_except. rewrite (read_int_some u v) by exact Harg.
  rewrite bind_run. unfold int_pow_half.
  destruct (v <? 0); [eexists; split; [reflexivity|left]|].
  destruct (float_root v) as [m|] eqn:Hm; [|eexists; split; [reflexivity|left]].
  cbn [mret M_ret].
  destruct ((m * m =? v) && (m <=? PHYSICAL_GRID_SIZE)) eqn:Hguard;
    [|eexists; split; [reflexivity|right; left]].
  apply andb_true_iff in Hguard as [Hsq%Z.eqb_eq Hm8%Z.leb_le].
  destruct Hv. exists m. unfold PHYSICAL_GRID_SIZE in Hm8.
  split; [split; [apply Hnonneg; reflexivity|exact Hm8]|symmetry; exact Hsq].
Qed.

End Leds.

(** ** The focus indicator *)

Lemma focus_shown_focus_on (w : world) : focus_shown (focus_on w).
Proof.
  unfold focus_shown, focus_on, all_off.
  cbn [cfg strip leds leds_level log with_strip trace level].
  split; [reflexivity|]. split; [reflexivity|].
  exists (omap (fun e => match e with Show f l => Some (f, l) | _ => None end) (trace w)),
         (level (strip w)).
  rewrite !omap_app, <- app_assoc. reflexivity.
Qed.

Lemma focus_shown_print (s : string) (w : world) :
  focus_shown w -> focus_shown (log (Print s) w).
Proof.
  unfold focus_shown. cbn [cfg strip leds leds_level log trace].
  intros (H1 & H2 & evs & lv & H3). split; [exact H1|]. split; [exact H2|].
  exists evs, lv. rewrite omap_app, H3. apply app_nil_r.
Qed.

Lemma loop_turn_line float_root (line : string) (c : control) (w w' : world) :
  handle_line float_root line w = (Ok c, w') ->
  loop_turn float_root (Line line) w = (Ok c, w').
Proof. intros H. unfold loop_turn, try_except_interrupt. rewrite H. reflexivity. Qed.

Section Commands.

Variable float_root : Z -> option Z.

Hypothesis float_root_exact :
  forall n, 0 <= n <= 8 -> float_root (n * n) = Some n.

(** C7: after a capture run that completes, and after a brightness or a
    colour command that is accepted, the LEDs show the focus indicator:
    the last two frames latched are all dark, then the one LED number 27,
    cell (3,3) of the centered 2x2 block, in the current colour at the
    current brightness. *)
Theorem focus_indicator_restored :
  (forall n w w',
      wf_world w -> 0 <= n <= 8 -> current_led_count (cfg w) = n * n ->
      capture_sequence float_root w = (Ok tt, w') -> focus_shown w') /\
  (forall line v w,
      wf_world w ->
      startswith (lower (Text.strip line)) "brightness" = true ->
      numeric_arg (lower (Text.strip line)) = Some v -> 0 <= v <= 255 ->
      exists w', handle_line float_root line w = (Ok Continue, w') /\
                 current_brightness (cfg w') = v /\ focus_shown w') /\
  (forall line name w,
      wf_world w ->
      startswith (lower (Text.strip line)) "color" = true ->
      first_arg (lower (Text.strip line)) = Some name ->
      name ∈ ["red"; "green"; "blue"; "white"] ->
      exists w', handle_line float_root line w = (Ok Continue, w') /\
                 current_color (cfg w') = name /\ focus_shown w') /\
  FOCUS_LED_INDEX = index 3 3 /\
  (3, 3) ∈ sub_grid ((8 - 2) `div` 2) 2.
Proof.
  split; [|split; [|split; [|split]]].
  - intros n w w' Hwf Hn Hcount Hrun.
    apply (capture_sequence_completed_inv float_root float_root_exact n) in Hrun
      as (-> & _ & _); try assumption.
    apply focus_shown_focus_on.
  - intros line v w Hwf Hkw Harg Hv.
    exists (focus_on (with_cfg (set_brightness v) w)).
    split; [|split; [reflexivity|apply focus_shown_focus_on]].
    unfold handle_line. rewrite route_brightness by exact Hkw.
    rewrite bind_run, (cmd_brightness_ok _ v) by assumption. reflexivity.
  - intros line name w Hwf Hkw Harg Hname.
    exists (log (Print ("Color set to " +:+ name))
                (focus_on (with_cfg (set_color name) w))).
    split; [|split; [reflexivity|apply focus_shown_print, focus_shown_focus_on]].
    unfold handle_line. rewrite route_color by exact Hkw.
    rewrite bind_run, (cmd_color_ok _ name) by assumption. reflexivity.
  - reflexivity.
  - apply elem_of_sub_grid. change ((8 - 2) `div` 2) with 3. lia.
Qed.

(** C2, at the input on which the code departs from it: [leds 0] is
    accepted, the stored count becomes 0 and the confirmation line is
    printed. *)
Theorem leds_zero_is_stored (w : world) :
  handle_line float_root "leds 0" w =
  (Ok Continue, log (Print "LED grid for capture: 0") (with_cfg (set_led_count 0) w))
  /\ current_led_count (cfg (handle_line float_root "leds 0" w).2) = 0.
Proof.
  assert (handle_line float_root "leds 0" w =
          (Ok Continue, log (Print "LED grid for capture: 0")
                            (with_cfg (set_led_count 0) w))) as H.
  { unfold handle_line. change (lower (Text.strip "leds 0")) with "leds 0".
    rewrite route_leds by reflexivity.
    rewrite bind_run, (cmd_leds_square float_root float_root_exact "leds 0" 0)
      by (reflexivity || lia).
    reflexivity. }
  split; [exact H|]. rewrite H. reflexivity.
Qed.

End Commands.


(** ** Time stamps *)






(** ** A failing camera *)


Section CameraFailure.

Variable float_root : Z -> option Z.

Hypothesis float_root_exact :
  forall n, 0 <= n <= 8 -> float_root (n * n) = Some n.


(** ** The destination folder *)


End CameraFailure.

(** ** Lower case and blanks *)

Lemma is_upper_lower_char (c : ascii) : is_upper (lower_char c) = false.
Proof. destruct c as [[] [] [] [] [] [] [] []]; reflexivity. Qed.

Lemma is_space_lower_char (c : ascii) : is_space (lower_char c) = is_space c.
Proof. destruct c as [[] [] [] [] [] [] [] []]; reflexivity. Qed.

Lemma has_upper_cons (c : ascii) (s : string) :
  has_upper (String c s) = is_upper c || has_upper s.
Proof. reflexivity. Qed.

Lemma has_upper_lower (s : string) : has_upper (lower s) = false.
Proof.
  induction s as [|c s IH]; [reflexivity|].
  cbn [lower]. rewrite has_upper_cons, is_upper_lower_char, IH. reflexivity.
Qed.

Lemma has_upper_lstrip (s : string) : has_upper s = false -> has_upper (lstrip s) = false.
Proof.
  induction s as [|c s IH]; [reflexivity|]. intros H. cbn [lstrip].
  destruct (is_space c); [|exact H].
  rewrite has_upper_cons in H. apply orb_false_iff in H as [_ H]. auto.
Qed.

Lemma rstrip_cons (c : ascii) (s : string) :
  rstrip (String c s) =
  match rstrip s with
  | EmptyString => if is_space c then EmptyString else String c EmptyString
  | r => String c r
  end.
Proof. reflexivity. Qed.

Lemma has_upper_rstrip (s : string) : has_upper s = false -> has_upper (rstrip s) = false.
Proof.
  induction s as [|c s IH]; [reflexivity|]. intros H.
  rewrite has_upper_cons in H. apply orb_false_iff in H as [Hc H].
  rewrite rstrip_cons. specialize (IH H).
  destruct (rstrip s) as [|a r].
  - destruct (is_space c); [reflexivity|].
    rewrite has_upper_cons, Hc. reflexivity.
  - rewrite has_upper_cons, Hc. exact IH.
Qed.

Lemma has_upper_strip (s : string) : has_upper s = false -> has_upper (Text.strip s) = false.
Proof. intros H. unfold Text.strip. apply has_upper_rstrip, has_upper_lstrip, H. Qed.

Lemma has_upper_split (s : string) :
  has_upper s = false -> Forall (fun t => has_upper t = false) (split s).
Proof.
  induction s as [|c s IH]; [constructor|]. intros H.
  rewrite has_upper_cons in H. apply orb_false_iff in H as [Hc H].
  specialize (IH H). cbn [split].
  destruct (is_space c); [exact IH|].
  destruct (starts_word s).
  - destruct (split s) as [|t ts].
    + constructor; [|constructor]. rewrite has_upper_cons, Hc. reflexivity.
    + apply Forall_cons in IH as [Ht Hts]. constructor; [|exact Hts].
      rewrite has_upper_cons, Hc. exact Ht.
  - constructor; [|exact IH]. rewrite has_upper_cons, Hc. reflexivity.
Qed.

Lemma has_upper_take_word (s : string) :
  has_upper s = false ->
  has_upper (take_word s).1 = false /\ has_upper (take_word s).2 = false.
Proof.
  induction s as [|c s IH]; [split; reflexivity|]. intros H. cbn [take_word].
  destruct (is_space c); [split; [reflexivity|exact H]|].
  rewrite has_upper_cons in H. apply orb_false_iff in H as [Hc H].
  destruct (IH H) as [H1 H2]. destruct (take_word s) as [t r]. simpl in *.
  split; [|exact H2]. rewrite has_upper_cons, Hc. exact H1.
Qed.

Lemma has_upper_split1 (s : string) :
  has_upper s = false -> Forall (fun t => has_upper t = false) (split1 s).
Proof.
  intros H. unfold split1. apply has_upper_lstrip in H.
  destruct (lstrip s) as [|c s0]; [constructor|].
  destruct (has_upper_take_word _ H) as [H1 H2].
  destruct (take_word (String c s0)) as [t r]. simpl in H1, H2.
  apply has_upper_lstrip in H2.
  destruct (lstrip r); repeat constructor; assumption.
Qed.

Lemma lstrip_lower (s : string) : lstrip (lower s) = lower (lstrip s).
Proof.
  induction s as [|c s IH]; [reflexivity|].
  cbn [lower lstrip]. rewrite is_space_lower_char.
  destruct (is_space c); [exact IH|reflexivity].
Qed.

Lemma rstrip_lower (s : string) : rstrip (lower s) = lower (rstrip s).
Proof.
  induction s as [|c s IH]; [reflexivity|].
  cbn [lower]. rewrite !rstrip_cons, IH, is_space_lower_char.
  destruct (rstrip s); [destruct (is_space c)|]; reflexivity.
Qed.

Lemma strip_lower (s : string) : Text.strip (lower s) = lower (Text.strip s).
Proof. unfold Text.strip. rewrite lstrip_lower, rstrip_lower. reflexivity. Qed.

Lemma lstrip_rstrip (s : string) : lstrip (rstrip s) = rstrip (lstrip s).
Proof.
  induction s as [|c s IH]; [reflexivity|].
  rewrite rstrip_cons. cbn [lstrip]. destruct (is_space c) eqn:Hc.
  - rewrite <- IH. destruct (rstrip s) as [|a r]; [reflexivity|].
    cbn [lstrip]. rewrite Hc. reflexivity.
  - rewrite rstrip_cons.
    destruct (rstrip s) as [|a r]; cbn [lstrip]; rewrite Hc; reflexivity.
Qed.

Lemma lstrip_idem (s : string) : lstrip (lstrip s) = lstrip s.
Proof.
  induction s as [|c s IH]; [reflexivity|]. cbn [lstrip].
  destruct (is_space c) eqn:Hc; [exact IH|]. cbn [lstrip]. rewrite Hc. reflexivity.
Qed.

Lemma rstrip_idem (s : string) : rstrip (rstrip s) = rstrip s.
Proof.
  induction s as [|c s IH]; [reflexivity|].
  rewrite rstrip_cons. destruct (rstrip s) as [|a r] eqn:Hr.
  - destruct (is_space c) eqn:Hc; [reflexivity|].
    rewrite rstrip_cons. cbn [rstrip]. rewrite Hc. reflexivity.
  - rewrite rstrip_cons, IH. reflexivity.
Qed.

Lemma strip_idem (s : string) : Text.strip (Text.strip s) = Text.strip s.
Proof.
  unfold Text.strip. rewrite lstrip_rstrip, lstrip_idem, rstrip_idem. reflexivity.
Qed.

Lemma rstrip_app (p s : string) :
  rstrip s <> "" -> rstrip (p +:+ s) = p +:+ rstrip s.
Proof.
  intros Hs. induction p as [|c p IH]; [reflexivity|].
  change (String c p +:+ s) with (String c (p +:+ s)).
  change (String c p +:+ rstrip s) with (String c (p +:+ rstrip s)).
  rewrite rstrip_cons, IH.
  destruct (p +:+ rstrip s) as [|a r] eqn:Hp; [|reflexivity].
  destruct p; [|discriminate Hp]. simpl in Hp. contradiction.
Qed.

Lemma lower_nonempty (s : string) : s <> "" -> lower s <> "".
Proof. destruct s; [congruence|discriminate]. Qed.

(** ** The invariant of the session *)

Lemma preserves_ret (P : world -> Prop) {A} (a : A) : preserves P (mret a).
Proof. intros w H. exact H. Qed.

Lemma preserves_bind (P : world -> Prop) {A B} (m : M A) (k : A -> M B) :
  preserves P m -> (forall a, returns m a -> preserves P (k a)) ->
  preserves P (m ≫= k).
Proof.
  intros Hm Hk w Hw. rewrite bind_run. specialize (Hm w Hw).
  destruct (m w) as [[a|e] w1] eqn:Hrun; simpl in *; [|exact Hm].
  apply Hk; [exists w, w1; exact Hrun|exact Hm].
Qed.

Lemma preserves_try_except (P : world -> Prop) {A} (body handler : M A) :
  preserves P body -> preserves P handler -> preserves P (try_except body handler).
Proof.
  intros Hb Hh w Hw. unfold try_except. specialize (Hb w Hw).
  destruct (body w) as [[a|e] w1]; simpl in *; [exact Hb|apply Hh; exact Hb].
Qed.

Lemma session_ok_shape (w w' : world) :
  shape w' = shape w -> session_ok w -> session_ok w'.
Proof.
  unfold session_ok, wf_world, shape. intros [= Hcfg Hlen] (H1 & H2 & H3).
  rewrite Hcfg, Hlen. auto.
Qed.

Lemma preserves_keeps {A} (m : M A) : keeps_shape m -> preserves session_ok m.
Proof. intros Hm w Hw. apply (session_ok_shape w); [apply Hm|exact Hw]. Qed.

Ltac keeps_ok := apply preserves_keeps; solve [keeps].

Lemma returns_item (l : list string) (i : nat) (t : string) :
  returns (item l i) t -> l !! i = Some t.
Proof.
  intros (w & w' & H). unfold item in H.
  destruct (l !! i); [injection H as -> _; reflexivity|discriminate H].
Qed.

Lemma returns_int_pow_half float_root (v n : Z) :
  returns (int_pow_half float_root v) n -> float_root v = Some n.
Proof.
  intros (w & w' & H). unfold int_pow_half in H.
  destruct (v <? 0); [discriminate H|].
  destruct (float_root v); [injection H as -> _; reflexivity|discriminate H].
Qed.

Lemma keeps_item l i : keeps_shape (item l i).
Proof. unfold item. destruct (l !! i); auto with keeps. Qed.

Lemma keeps_int_of s : keeps_shape (int_of s).
Proof. unfold int_of. destruct (parse_int s); auto with keeps. Qed.

Global Hint Resolve keeps_item keeps_int_of : keeps.

Lemma session_ok_cfg (f : globals -> globals) (w : world) :
  (square_count (current_led_count (cfg w)) ->
   square_count (current_led_count (f (cfg w)))) ->
  (lowercase_cfg (cfg w) -> lowercase_cfg (f (cfg w))) ->
  session_ok w -> session_ok (with_cfg f w).
Proof. intros Hsq Hlow (H1 & H2 & H3). split; [exact H1|]. split; auto. Qed.

Lemma preserves_cmd_brightness (u : string) : preserves session_ok (cmd_brightness u).
Proof.
  unfold cmd_brightness. apply preserves_try_except; [|keeps_ok].
  apply preserves_bind; [keeps_ok|]. intros tok _.
  apply preserves_bind; [keeps_ok|]. intros val _.
  destruct (_ && _); [|keeps_ok].
  apply preserves_bind; [|intros; keeps_ok].
  intros w Hw. apply session_ok_cfg; auto.
Qed.

Lemma preserves_cmd_exposure (u : string) : preserves session_ok (cmd_exposure u).
Proof.
  unfold cmd_exposure. apply preserves_try_except; [|keeps_ok].
  apply preserves_bind; [keeps_ok|]. intros tok _.
  apply preserves_bind; [keeps_ok|]. intros val _.
  destruct (0 <? val); [|keeps_ok].
  apply preserves_bind; [|intros; keeps_ok].
  intros w Hw. apply session_ok_cfg; auto.
Qed.

Lemma preserves_cmd_color (u : string) :
  has_upper u = false -> preserves session_ok (cmd_color u).
Proof.
  intros Hu. unfold cmd_color.
  apply preserves_try_except; [|keeps_ok].
  apply preserves_bind; [keeps_ok|].
  intros val Hval%returns_item.
  destruct (bool_decide _); [|keeps_ok].
  apply preserves_bind; [|intros; keeps_ok].
  intros w Hw. apply session_ok_cfg; [auto| |exact Hw].
  intros [_ Hfolder]. split; [|exact Hfolder]. cbn.
  pose proof (has_upper_split u Hu) as Hall. rewrite Forall_forall in Hall.
  apply Hall. apply list_elem_of_lookup. eauto.
Qed.

Lemma preserves_cmd_folder (u : string) :
  has_upper u = false -> preserves session_ok (cmd_folder u).
Proof.
  intros Hu. unfold cmd_folder. pose proof (has_upper_split1 u Hu) as Hall.
  destruct (split1 u) as [|kw [|arg [|x l]]]; try (keeps_ok).
  apply Forall_cons in Hall as [_ Hall]. apply Forall_cons in Hall as [Harg _].
  apply has_upper_strip in Harg.
  destruct (Text.strip arg) as [|a name] eqn:Hname; [keeps_ok|].
  apply preserves_bind; [|intros; keeps_ok].
  intros w Hw. apply session_ok_cfg; [auto| |exact Hw].
  intros [Hcolor _]. split; [exact Hcolor|]. cbn.
  intros name' [= <-]. split; [exact Harg|discriminate].
Qed.

Section Invariant.

Variable float_root : Z -> option Z.

(** The floating-point root of a number that has one is not negative. *)
Hypothesis float_root_nonneg : forall v n, float_root v = Some n -> 0 <= n.

Lemma preserves_cmd_leds (u : string) : preserves session_ok (cmd_leds float_root u).
Proof.
  unfold cmd_leds. apply preserves_try_except; [|keeps_ok].
  apply preserves_bind; [keeps_ok|]. intros tok _.
  apply preserves_bind; [keeps_ok|]. intros val _.
  apply preserves_bind; [keeps_ok|].
  intros n Hn%returns_int_pow_half.
  destruct (_ && _) eqn:Hguard; [|keeps_ok].
  apply andb_true_iff in Hguard as [Hsq%Z.eqb_eq Hle%Z.leb_le].
  apply preserves_bind; [|intros; keeps_ok].
  intros w Hw. apply session_ok_cfg; [|auto|exact Hw].
  intros _. cbn. exists n. unfold PHYSICAL_GRID_SIZE in Hle.
  split; [split; [apply (float_root_nonneg val); exact Hn|exact Hle]|].
  symmetry. exact Hsq.
Qed.

Lemma preserves_handle_input (u : string) :
  has_upper u = false -> preserves session_ok (handle_input float_root u).
Proof.
  intros Hu. unfold handle_input.
  repeat match goal with
         | |- preserves _ (if ?b then _ else _) => destruct b
         end;
    try (apply preserves_ret);
    (apply preserves_bind; [|intros; apply preserves_ret]).
  - apply preserves_cmd_brightness.
  - apply preserves_cmd_leds.
  - apply preserves_cmd_exposure.
  - apply preserves_cmd_color. exact Hu.
  - apply preserves_cmd_folder. exact Hu.
  - apply preserves_keeps, keeps_capture_sequence.
  - keeps_ok.
Qed.

Lemma preserves_handle_line (line : string) :
  preserves session_ok (handle_line float_root line).
Proof. apply preserves_handle_input, has_upper_lower. Qed.

Lemma preserves_loop_turn (i : input) : preserves session_ok (loop_turn float_root i).
Proof.
  intros w Hw. unfold loop_turn, try_except_interrupt. destruct i as [line|].
  - pose proof (preserves_handle_line line w Hw) as H.
    destruct (handle_line float_root line w) as [[c|[]] w1]; exact H.
  - exact Hw.
Qed.

Lemma preserves_command_loop (inputs : list input) :
  preserves session_ok (command_loop float_root inputs).
Proof.
  induction inputs as [|i inputs IH]; [apply preserves_ret|].
  cbn [command_loop]. apply preserves_bind; [apply preserves_loop_turn|].
  intros [|] _; [exact IH|apply preserves_ret].
Qed.

Lemma preserves_session (inputs : list input) :
  preserves session_ok (session float_root inputs).
Proof.
  unfold session. apply preserves_bind; [apply preserves_command_loop|].
  intros [|] _; [|apply preserves_ret].
  apply preserves_bind; [apply preserves_keeps, keeps_cleanup|].
  intros; apply preserves_ret.
Qed.

Lemma session_ok_initial (faults : list bool) (now : datetime) :
  session_ok (initial_world faults now).
Proof.
  split; [reflexivity|]. split.
  - exists 2. split; [lia|reflexivity].
  - split; [reflexivity|]. intros name H. discriminate H.
Qed.

(** Whatever the operator types and whatever the camera does, the strip
    keeps its 64 pixels, the stored count is the square of some 0..8 and
    the stored text is in lower case. *)
Lemma program_session_ok (inputs : list input) (faults : list bool) (now : datetime) :
  session_ok (program float_root inputs (initial_world faults now)).2.
Proof.
  unfold program.
  apply (preserves_bind session_ok startup (fun _ => session float_root inputs)).
  - apply preserves_keeps, keeps_startup.
  - intros _ _. apply preserves_session.
  - apply session_ok_initial.
Qed.

End Invariant.

(** ** The folder command *)

Lemma strip_nonempty_rstrip (name : string) : Text.strip name <> "" -> rstrip name <> "".
Proof.
  intros Hne Hr. apply Hne. unfold Text.strip. rewrite <- lstrip_rstrip, Hr. reflexivity.
Qed.

Lemma normalise_folder_line (name : string) :
  Text.strip name <> "" ->
  lower (Text.strip ("folder " +:+ name)) = "folder " +:+ lower (rstrip name).
Proof.
  intros Hne. unfold Text.strip at 1.
  change (lstrip ("folder " +:+ name)) with ("folder " +:+ name).
  rewrite rstrip_app by (apply strip_nonempty_rstrip; exact Hne). reflexivity.
Qed.

Lemma split1_folder_line (name : string) :
  Text.strip name <> "" ->
  split1 ("folder " +:+ lower (rstrip name)) = ["folder"; lower (Text.strip name)].
Proof.
  intros Hne. unfold split1.
  change (lstrip ("folder " +:+ lower (rstrip name)))
    with (String "f" ("older " +:+ lower (rstrip name))).
  cbv iota.
  change (take_word (String "f" ("older " +:+ lower (rstrip name))))
    with ("folder", " " +:+ lower (rstrip name)).
  cbv iota beta.
  change (lstrip (" " +:+ lower (rstrip name))) with (lstrip (lower (rstrip name))).
  rewrite lstrip_lower, lstrip_rstrip. fold (Text.strip name).
  destruct (lower (Text.strip name)) as [|a r] eqn:Hl; [|reflexivity].
  destruct (lower_nonempty _ Hne Hl).
Qed.

Section Folder.

Variable float_root : Z -> option Z.

Lemma folder_command_stores (name : string) (w : world) :
  Text.strip name <> "" ->
  handle_line float_root ("folder " +:+ name) w =
  (Ok Continue,
   log (Print ("Folder name set to: " +:+ lower (Text.strip name)))
       (with_cfg (set_folder_name (Some (lower (Text.strip name)))) w)).
Proof.
  intros Hne. unfold handle_line. rewrite normalise_folder_line by exact Hne.
  rewrite route_folder
    by exact (startswith_app "folder" (" " +:+ lower (rstrip name))).
  rewrite bind_run. unfold cmd_folder.
  rewrite split1_folder_line by exact Hne.
  rewrite strip_lower, strip_idem.
  destruct (lower (Text.strip name)) as [|a r] eqn:Hl;
    [destruct (lower_nonempty _ Hne Hl)|].
  reflexivity.
Qed.

Hypothesis float_root_nonneg : forall v n, float_root v = Some n -> 0 <= n.

(** C10: the line read is stripped and put in lower case before it is
    looked at, so no text stored in the globals has a capital letter:
    this holds at start-up and after every line, whatever it is; and
    [folder <name>] stores the name trimmed and in lower case, so
    [folder MyPhotos] stores "myphotos". *)
Theorem stored_text_is_lowercase :
  (forall line, has_upper (lower (Text.strip line)) = false) /\
  lowercase_cfg initial_globals /\
  (forall line w, session_ok w -> session_ok (handle_line float_root line w).2) /\
  (forall inputs faults now,
      lowercase_cfg (cfg (program float_root inputs (initial_world faults now)).2)) /\
  (forall name w,
      Text.strip name <> "" ->
      current_folder_name (cfg (handle_line float_root ("folder " +:+ name) w).2)
      = Some (lower (Text.strip name))) /\
  (forall w,
      current_folder_name (cfg (handle_line float_root "folder MyPhotos" w).2)
      = Some "myphotos").
Proof.
  split; [intros line; apply has_upper_lower|].
  split; [split; [reflexivity|intros name H; discriminate H]|].
  split; [intros line; apply (preserves_handle_line float_root float_root_nonneg)|].
  split; [intros inputs faults now;
          apply (program_session_ok float_root float_root_nonneg)|].
  split.
  - intros name w Hne. rewrite folder_command_stores by exact Hne. reflexivity.
  - intros w. rewrite (folder_command_stores "MyPhotos") by discriminate. reflexivity.
Qed.

End Folder.

(** ** Concrete runs *)

Lemma exact_root_nonneg (v n : Z) : exact_root v = Some n -> 0 <= n.
Proof. unfold exact_root. intros [= <-]. apply Z.sqrt_nonneg. Qed.

Lemma sample_run :
  capture_sequence exact_root sample_world = (Ok tt, completed 2 sample_world).
Proof.
  apply capture_sequence_completes.
  - exact exact_root_ok.
  - reflexivity.
  - lia.
  - reflexivity.
  - apply not_elem_of_empty.
  - apply not_elem_of_nil.
Qed.

Example sample_run_files :
  elements (files (completed 2 sample_world)) =
  [ "/home/fpm/camera_capture2/2026-03-07_09-05-00/led_r3_c3.jpg";
    "/home/fpm/camera_capture2/2026-03-07_09-05-00/led_r3_c4.jpg";
    "/home/fpm/camera_capture2/2026-03-07_09-05-00/led_r4_c3.jpg";
    "/home/fpm/camera_capture2/2026-03-07_09-05-00/led_r4_c4.jpg" ].
Proof. vm_compute. reflexivity. Qed.

Example text_examples :
  lower (Text.strip "  Folder MyPhotos ") = "folder myphotos" /\
  split "leds  16 x" = ["leds"; "16"; "x"] /\
  split1 "folder  my  photos" = ["folder"; "my  photos"] /\
  parse_int "-12" = Some (-12) /\ parse_int "1_0" = Some 10 /\
  parse_int "007" = Some 7 /\ parse_int "1__0" = None /\
  parse_int "abc" = None /\ parse_int "" = None /\ parse_int "4.0" = None /\
  path_join "/home/fpm" "run1" = "/home/fpm/run1" /\
  path_join "/home/fpm" "/tmp/x" = "/tmp/x" /\
  strftime sample_time = "2026-03-07_09-05-00".
Proof. repeat split. Qed.

Example leds_examples :
  printed (trace (handle_line exact_root "leds 5" sample_world).2)
    = ["Must be square number ≤ 64."] /\
  printed (trace (handle_line exact_root "leds -4" sample_world).2)
    = ["Usage: leds <value>"] /\
  printed (trace (handle_line exact_root "leds 81" sample_world).2)
    = ["Must be square number ≤ 64."] /\
  printed (trace (handle_line exact_root "LEDS 16" sample_world).2)
    = ["LED grid for capture: 16"] /\
  current_led_count (cfg (handle_line exact_root "leds 81" sample_world).2) = 4.
Proof. repeat split. Qed.

(** *** Witnesses *)


Lemma leds_zero_is_stored_witness :
  current_led_count (cfg sample_world) = 4 /\
  current_led_count (cfg (handle_line exact_root "leds 0" sample_world).2) = 0.
Proof.
  split; [reflexivity|].
  exact (proj2 (leds_zero_is_stored exact_root exact_root_ok sample_world)).
Defined.


Lemma one_led_at_a_time_witness :
  exists lv evs,
    trace (completed 2 sample_world) = trace sample_world ++ Show dark lv :: evs /\
    one_at_a_time dark (frames_of evs) /\
    last (dark :: frames_of evs) = Some (leds (strip (completed 2 sample_world))).
Proof.
  apply (one_led_at_a_time exact_root exact_root_ok 2 sample_world
           (completed 2 sample_world) (Ok tt)).
  - reflexivity.
  - lia.
  - reflexivity.
  - exact sample_run.
Defined.

Lemma capture_run_order_witness :
  Sorted row_major_lt (sub_grid 3 2) /\
  exists lv lv',
    trace (completed 2 sample_world) =
    trace sample_world
      ++ [Show dark lv; MakeDirs (save_dir_of sample_world);
          Print ("Saving images to: " +:+ save_dir_of sample_world)]
      ++ concat (coord_events (save_dir_of sample_world) 100 (get_color "green")
                   <$> sub_grid 3 2)
      ++ [Print "Capture complete."; Show dark lv';
          Show (lit FOCUS_LED_INDEX (get_color "green")) 100].
Proof.
  apply (capture_run_order exact_root exact_root_ok 2 sample_world
           (completed 2 sample_world)).
  - reflexivity.
  - lia.
  - reflexivity.
  - exact sample_run.
Defined.

Lemma frames_match_plan_witness :
  exists evs,
    trace (completed 2 sample_world) = trace sample_world ++ evs /\
    captured evs = frame_path (save_dir_of sample_world) <$> sub_grid 3 2 /\
    length (captured evs) = 4%nat.
Proof.
  destruct (frames_match_plan exact_root exact_root_ok 2 sample_world
              (completed 2 sample_world))
    as (evs & Htrace & Hcap & _ & Hlen & _).
  - reflexivity.
  - lia.
  - reflexivity.
  - exact sample_run.
  - exists evs. split; [exact Htrace|]. split; [exact Hcap|exact Hlen].
Defined.

Lemma focus_indicator_restored_witness :
  focus_shown (completed 2 sample_world) /\
  exists w', handle_line exact_root "brightness 40" sample_world = (Ok Continue, w') /\
             current_brightness (cfg w') = 40 /\ focus_shown w'.
Proof.
  destruct (focus_indicator_restored exact_root exact_root_ok) as (Hrun & Hbright & _).
  split.
  - apply (Hrun 2 sample_world); [reflexivity|lia|reflexivity|exact sample_run].
  - apply Hbright; [reflexivity|reflexivity|reflexivity|lia].
Defined.



Lemma stored_text_is_lowercase_witness :
  current_folder_name
    (cfg (handle_line exact_root ("folder " +:+ "  My Photos  ") sample_world).2)
  = Some "my photos" /\
  session_ok (handle_line exact_root "COLOR Red" sample_world).2.
Proof.
  destruct (stored_text_is_lowercase exact_root exact_root_nonneg)
    as (_ & _ & Hstep & _ & Hfolder & _).
  split.
  - apply (Hfolder "  My Photos  " sample_world). discriminate.
  - apply Hstep. apply (session_ok_initial [] sample_time).
Defined.

(** *** Where the code departs from the text *)




(** ** Further properties of the helpers *)

Lemma get_color_zero_iff (name : string) : get_color name = 0 <-> lower name = "off".
Proof.
  unfold get_color.
  destruct (String.eqb_spec (lower name) "white") as [->|_]; [split; discriminate|].
  destruct (String.eqb_spec (lower name) "red") as [->|_]; [split; discriminate|].
  destruct (String.eqb_spec (lower name) "green") as [->|_]; [split; discriminate|].
  destruct (String.eqb_spec (lower name) "blue") as [->|_]; [split; discriminate|].
  destruct (String.eqb_spec (lower name) "off") as [->|Hoff]; [split; reflexivity|].
  split; [discriminate|contradiction].
Qed.

Lemma lit_count_lit_on (i c : Z) : 0 <= i < 64 -> c <> 0 -> lit_count (lit i c) = 1%nat.
Proof.
  intros Hi Hc. unfold lit_count, lit, dark.
  rewrite insert_take_drop by (rewrite length_replicate; lia).
  rewrite take_replicate, drop_replicate, filter_app, filter_replicate_zero.
  rewrite filter_cons_True by exact Hc. rewrite filter_replicate_zero. reflexivity.
Qed.

Lemma index_inj (p q : Z * Z) :
  in_grid p -> in_grid q -> index p.1 p.2 = index q.1 q.2 -> p = q.
Proof.
  destruct p as [r c], q as [r' c']. unfold in_grid, index, PHYSICAL_GRID_SIZE.
  simpl. intros Hp Hq Heq. f_equal; lia.
Qed.

(** X1: [index] numbers the cells of the 8x8 grid 0..63 row by row: it is
    inverted by division and remainder by 8, every LED number is the index
    of one cell, and the cells of a plan light pairwise distinct LEDs. *)
Theorem index_bijection :
  (forall r c, in_grid (r, c) ->
     0 <= index r c < 64 /\ index r c `div` 8 = r /\ index r c `mod` 8 = c) /\
  (forall i, 0 <= i < 64 ->
     in_grid (i `div` 8, i `mod` 8) /\ index (i `div` 8) (i `mod` 8) = i) /\
  (forall n, 0 <= n <= 8 ->
     NoDup ((fun rc : Z * Z => index rc.1 rc.2) <$> plan_of_side n)).
Proof.
  split; [|split].
  - intros r c. unfold in_grid, index, PHYSICAL_GRID_SIZE. simpl. intros [Hr Hc].
    split; [lia|]. split.
    + rewrite Z.div_add_l by lia. rewrite Z.div_small by lia. lia.
    + rewrite Z.add_comm, Z.mod_add by lia. apply Z.mod_small. lia.
  - intros i Hi. unfold in_grid, index, PHYSICAL_GRID_SIZE. simpl.
    pose proof (Z.div_mod i 8 ltac:(lia)) as Hdm.
    pose proof (Z.mod_pos_bound i 8 ltac:(lia)) as Hm.
    split; [|lia]. split; [|exact Hm].
    split; [apply Z.div_pos; lia|apply Z.div_lt_upper_bound; lia].
  - intros n Hn. apply NoDup_fmap_2_strong; [|apply plan_NoDup].
    pose proof (plan_in_grid n Hn) as Hgrid. rewrite Forall_forall in Hgrid.
    intros p q Hp Hq. apply index_inj; auto.
Qed.

(** X2: [get_color] gives the dark value 0 for the name "off" alone,
    whatever its case; a name that is none of white, red, green, blue, off
    falls back to white; every value is a 24-bit colour. *)
Theorem get_color_values (name : string) :
  (get_color name = 0 <-> lower name = "off") /\
  (lower name ∉ ["white"; "red"; "green"; "blue"; "off"] ->
   get_color name = Color 255 255 255) /\
  0 <= get_color name < 2 ^ 24.
Proof.
  split; [apply get_color_zero_iff|]. unfold get_color.
  destruct (String.eqb_spec (lower name) "white") as [->|Hw].
  { split; [reflexivity|]. vm_compute. split; [discriminate|reflexivity]. }
  destruct (String.eqb_spec (lower name) "red") as [->|Hr].
  { split; [intros H; destruct H; apply list_elem_of_further, list_elem_of_here|].
    vm_compute. split; [discriminate|reflexivity]. }
  destruct (String.eqb_spec (lower name) "green") as [->|Hg].
  { split; [intros H; destruct H; do 2 apply list_elem_of_further; apply list_elem_of_here|].
    vm_compute. split; [discriminate|reflexivity]. }
  destruct (String.eqb_spec (lower name) "blue") as [->|Hb].
  { split; [intros H; destruct H; do 3 apply list_elem_of_further; apply list_elem_of_here|].
    vm_compute. split; [discriminate|reflexivity]. }
  destruct (String.eqb_spec (lower name) "off") as [->|Ho].
  { split; [intros H; destruct H; do 4 apply list_elem_of_further; apply list_elem_of_here|].
    vm_compute. split; [discriminate|reflexivity]. }
  split; [reflexivity|]. vm_compute. split; [discriminate|reflexivity].
Qed.

(** X3: [turn_off_all_leds] leaves every pixel and every LED dark whatever
    they showed, keeps the brightness level, the globals and the files, and
    doing it a second time changes nothing of the strip. *)
Theorem turn_off_all_leds_idempotent (w : world) :
  wf_world w ->
  exists w1 w2,
    turn_off_all_leds w = (Ok tt, w1) /\ turn_off_all_leds w1 = (Ok tt, w2) /\
    strip w2 = strip w1 /\
    pixels (strip w1) = dark /\ leds (strip w1) = dark /\
    lit_count (leds (strip w1)) = 0%nat /\
    level (strip w1) = level (strip w) /\
    cfg w1 = cfg w /\ files w1 = files w /\ dirs w1 = dirs w.
Proof.
  intros Hwf. exists (all_off w), (all_off (all_off w)).
  split; [apply turn_off_all_leds_spec; exact Hwf|].
  split; [apply turn_off_all_leds_spec, wf_all_off|].
  repeat split.
Qed.

(** X4: after [focus_led_on], unless the current colour is "off", exactly
    one LED is on: number 27 shows the current colour and each of the other
    63 is dark. *)
Theorem focus_led_is_the_only_one (w : world) :
  wf_world w -> lower (current_color (cfg w)) <> "off" ->
  let after := strip (focus_led_on w).2 in
  lit_count (leds after) = 1%nat /\
  leds after !! 27%nat = Some (get_color (current_color (cfg w))) /\
  (forall i, (i < 64)%nat -> i <> 27%nat -> leds after !! i = Some 0) /\
  leds_level after = current_brightness (cfg w).
Proof.
  intros Hwf Hoff. cbv zeta. rewrite focus_led_on_spec by exact Hwf.
  unfold focus_on, all_off.
  cbn [snd strip leds leds_level log with_strip cfg].
  split; [|split; [|split]].
  - apply lit_count_lit_on; [unfold FOCUS_LED_INDEX; lia|].
    intros H. apply Hoff, get_color_zero_iff, H.
  - unfold lit, dark. apply list_lookup_insert_eq. rewrite length_replicate.
    unfold FOCUS_LED_INDEX. lia.
  - intros i Hi Hne. unfold lit, dark.
    rewrite list_lookup_insert_ne by (unfold FOCUS_LED_INDEX; lia).
    apply lookup_replicate. split; [reflexivity|exact Hi].
  - reflexivity.
Qed.

(** ** What the hardware steps leave alone *)

Section Blind.

Context {X : Type} (f : world -> X).

Hypothesis f_blind : hardware_blind f.

Lemma kf_ret {A} (a : A) : keeps_field f (mret a).
Proof. intros w. reflexivity. Qed.

Lemma kf_raise {A} (e : exn) : keeps_field f (@raise A e).
Proof. intros w. reflexivity. Qed.

Lemma kf_gets {A} (g : world -> A) : keeps_field f (gets g).
Proof. intros w. reflexivity. Qed.

Lemma kf_bind {A B} (m : M A) (k : A -> M B) :
  keeps_field f m -> (forall a, keeps_field f (k a)) -> keeps_field f (m ≫= k).
Proof.
  intros Hm Hk w. rewrite bind_run. specialize (Hm w).
  destruct (m w) as [[a|e] w1]; simpl in *; [|exact Hm].
  rewrite Hk. exact Hm.
Qed.

Lemma kf_for_each {A} (l : list A) (body : A -> M unit) :
  (forall x, keeps_field f (body x)) -> keeps_field f (for_each l body).
Proof.
  intros Hbody. induction l as [|x l IH]; [apply kf_ret|].
  simpl. apply kf_bind; [apply Hbody|intros _; exact IH].
Qed.

Lemma kf_print (s : string) : keeps_field f (print s).
Proof. intros w. apply f_blind. Qed.

Lemma kf_sleep (ms : Z) : keeps_field f (sleep_ms ms).
Proof. intros w. apply f_blind. Qed.

Lemma kf_setPixelColor (i c : Z) : keeps_field f (setPixelColor i c).
Proof. intros w. apply f_blind. Qed.

Lemma kf_setBrightness (b : Z) : keeps_field f (setBrightness b).
Proof. intros w. apply f_blind. Qed.

Lemma kf_show : keeps_field f show.
Proof.
  intros w. unfold show, modify. cbn [snd].
  destruct f_blind as (Hlog & Hstrip & _). rewrite Hlog. apply Hstrip.
Qed.

Lemma kf_capture_file (path : string) : keeps_field f (capture_file path).
Proof.
  intros w. unfold capture_file.
  destruct f_blind as (Hlog & _ & Hfiles & _ & Hfaults).
  destruct (camera_faults w) as [|[] faults]; cbn [snd];
    rewrite Hlog, ?Hfiles, ?Hfaults; reflexivity.
Qed.

Lemma kf_makedirs (path : string) (ok : bool) : keeps_field f (makedirs path ok).
Proof.
  intros w. unfold makedirs. destruct f_blind as (Hlog & _ & _ & Hdirs & _).
  destruct (bool_decide (path ∈ files w)); [reflexivity|].
  destruct (bool_decide (path ∈ dirs w)); [destruct ok|]; cbn [snd];
    rewrite ?Hlog, ?Hdirs; reflexivity.
Qed.

Ltac kf :=
  repeat (cbv zeta;
          lazymatch goal with
          | |- keeps_field _ (for_each _ _) => apply kf_for_each; intros ?
          | |- keeps_field _ (mbind _ _) => apply kf_bind; [|intros ?]
          | |- _ =>
              solve [ apply kf_ret | apply kf_raise | apply kf_gets | apply kf_print
                    | apply kf_sleep | apply kf_setPixelColor | apply kf_setBrightness
                    | apply kf_show | apply kf_capture_file | apply kf_makedirs
                    | assumption ]
          end).

Lemma kf_turn_off_all_leds : keeps_field f turn_off_all_leds.
Proof. unfold turn_off_all_leds. kf. Qed.

Lemma kf_focus_led_on : keeps_field f focus_led_on.
Proof.
  pose proof kf_turn_off_all_leds as Hoff. unfold focus_led_on. kf.
Qed.

Lemma kf_capture_one d r c : keeps_field f (capture_one d r c).
Proof. unfold capture_one. kf. Qed.

Lemma kf_resolve_save_dir : keeps_field f resolve_save_dir.
Proof.
  unfold resolve_save_dir. apply kf_bind; [apply kf_gets|].
  intros [[|c s]|]; kf.
Qed.

Lemma kf_int_pow_half float_root v : keeps_field f (int_pow_half float_root v).
Proof.
  unfold int_pow_half. destruct (v <? 0); [apply kf_raise|].
  destruct (float_root v); [apply kf_ret|apply kf_raise].
Qed.

Lemma kf_capture_sequence float_root : keeps_field f (capture_sequence float_root).
Proof.
  pose proof kf_turn_off_all_leds as Hoff. pose proof kf_focus_led_on as Hfocus.
  pose proof kf_resolve_save_dir as Hdir.
  pose proof (kf_int_pow_half float_root) as Hroot.
  pose proof kf_capture_one as Hone.
  unfold capture_sequence.
  repeat (cbv zeta;
          lazymatch goal with
          | |- keeps_field _ (for_each _ _) => apply kf_for_each; intros ?
          | |- keeps_field _ (mbind _ _) => apply kf_bind; [|intros ?]
          | |- _ =>
              solve [ apply Hoff | apply Hfocus | apply Hdir | apply Hroot | apply Hone
                    | apply kf_gets | apply kf_print | apply kf_makedirs ]
          end).
Qed.

Lemma kf_cleanup : keeps_field f cleanup.
Proof. pose proof kf_turn_off_all_leds as Hoff. unfold cleanup. kf. Qed.

End Blind.

Lemma blind_cfg : hardware_blind cfg.
Proof. repeat split. Qed.

Lemma blind_camera_exposure : hardware_blind camera_exposure.
Proof. repeat split. Qed.

Lemma blind_clock : hardware_blind clock.
Proof. repeat split. Qed.

Lemma blind_settings : hardware_blind settings.
Proof. repeat split. Qed.

(** X5: a capture run, however it ends and whatever the stored count,
    changes none of the globals, nor the exposure the camera is set to, nor
    the clock, nor the number of pixels of the strip. *)
Theorem capture_run_keeps_configuration (float_root : Z -> option Z) (w : world) :
  let after := (capture_sequence float_root w).2 in
  cfg after = cfg w /\
  camera_exposure after = camera_exposure w /\
  clock after = clock w /\
  length (pixels (strip after)) = length (pixels (strip w)).
Proof.
  cbv zeta. split; [|split; [|split]].
  - apply (kf_capture_sequence cfg blind_cfg).
  - apply (kf_capture_sequence camera_exposure blind_camera_exposure).
  - apply (kf_capture_sequence clock blind_clock).
  - pose proof (keeps_capture_sequence float_root w) as H. unfold shape in H.
    congruence.
Qed.

(** ** Blanks around a line *)

Lemma lstrip_app_blank (b s : string) : lstrip b = "" -> lstrip (b +:+ s) = lstrip s.
Proof.
  induction b as [|c b IH]; [reflexivity|]. cbn [lstrip].
  change (String c b +:+ s) with (String c (b +:+ s)). cbn [lstrip].
  destruct (is_space c); [exact IH|discriminate].
Qed.

Lemma rstrip_blank_tail (s a : string) : rstrip a = "" -> rstrip (s +:+ a) = rstrip s.
Proof.
  intros Ha. induction s as [|c s IH]; [exact Ha|].
  change (String c s +:+ a) with (String c (s +:+ a)).
  rewrite !rstrip_cons, IH. reflexivity.
Qed.

Lemma lstrip_nonempty_app (s a : string) :
  lstrip s <> "" -> lstrip (s +:+ a) = lstrip s +:+ a.
Proof.
  induction s as [|c s IH]; intros H; [destruct H; reflexivity|].
  change (String c s +:+ a) with (String c (s +:+ a)). cbn [lstrip] in *.
  destruct (is_space c); [apply IH; exact H|reflexivity].
Qed.

Lemma strip_padded (before line after : string) :
  lstrip before = "" -> rstrip after = "" ->
  Text.strip (before +:+ line +:+ after) = Text.strip line.
Proof.
  intros Hb Ha. unfold Text.strip. rewrite lstrip_app_blank by exact Hb.
  destruct (decide (lstrip line = "")) as [Hl|Hl].
  - rewrite (lstrip_app_blank line after Hl), Hl, <- lstrip_rstrip, Ha. reflexivity.
  - rewrite lstrip_nonempty_app by exact Hl. apply rstrip_blank_tail. exact Ha.
Qed.

(** ** The exposure and colour commands *)

Lemma cmd_exposure_ok (u : string) (v : Z) (w : world) :
  numeric_arg u = Some v -> 0 < v ->
  cmd_exposure u w =
  (Ok tt, log (Print ("Exposure set to " +:+ pretty v +:+ " µs."))
              (log (SetControls v)
                   (with_camera_exposure v (with_cfg (set_exposure v) w)))).
Proof.
  intros Harg Hv. unfold cmd_exposure. apply try_except_ok.
  rewrite (read_int_some u v) by exact Harg.
  rewrite (proj2 (Z.ltb_lt 0 v)) by exact Hv.
  destruct w as [g s e faults k ds fl t]. reflexivity.
Qed.

Lemma cmd_exposure_nonpositive (u : string) (v : Z) (w : world) :
  numeric_arg u = Some v -> v <= 0 ->
  cmd_exposure u w = (Ok tt, log (Print "Must be positive.") w).
Proof.
  intros Harg Hv. unfold cmd_exposure. apply try_except_ok.
  rewrite (read_int_some u v) by exact Harg.
  rewrite (proj2 (Z.ltb_ge 0 v)) by exact Hv. reflexivity.
Qed.

Lemma cmd_color_invalid (u name : string) (w : world) :
  first_arg u = Some name -> name ∉ ["red"; "green"; "blue"; "white"] ->
  cmd_color u w = (Ok tt, log (Print "Invalid color.") w).
Proof.
  unfold first_arg. intros Harg Hname. unfold cmd_color. apply try_except_ok.
  rewrite bind_run. unfold item. rewrite Harg. cbn [mret M_ret].
  rewrite bool_decide_eq_false_2 by exact Hname. reflexivity.
Qed.

(** X7: [exposure <v>] with an integer [v]: a positive [v] is stored, sent
    to the camera and confirmed, and the LEDs are left as they are; zero or
    a negative [v] is answered with "Must be positive." and changes
    nothing. Either way the loop goes on. *)
Theorem exposure_command
    (float_root : Z -> option Z) (line : string) (v : Z) (w : world) :
  startswith (lower (Text.strip line)) "exposure" = true ->
  numeric_arg (lower (Text.strip line)) = Some v ->
  (0 < v ->
   exists w',
     loop_turn float_root (Line line) w = (Ok Continue, w') /\
     current_exposure (cfg w') = v /\ camera_exposure w' = v /\
     trace w' = trace w ++
                [SetControls v; Print ("Exposure set to " +:+ pretty v +:+ " µs.")] /\
     strip w' = strip w /\
     cfg w' = set_exposure v (cfg w)) /\
  (v <= 0 ->
   loop_turn float_root (Line line) w
   = (Ok Continue, log (Print "Must be positive.") w)).
Proof.
  intros Hkw Harg. split.
  - intros Hv. eexists. split.
    + apply loop_turn_line. unfold handle_line. rewrite route_exposure by exact Hkw.
      rewrite bind_run, (cmd_exposure_ok _ v) by assumption. reflexivity.
    + cbn [cfg camera_exposure trace strip log with_camera_exposure with_cfg
           set_exposure current_exposure].
      rewrite <- app_assoc. repeat split.
  - intros Hv. apply loop_turn_line. unfold handle_line.
    rewrite route_exposure by exact Hkw.
    rewrite bind_run, (cmd_exposure_nonpositive _ v) by assumption. reflexivity.
Qed.

(** X8: [color <name>] with a name other than red, green, blue, white,
    "off" included although [get_color] knows it, is answered with
    "Invalid color." and changes nothing; the loop goes on. *)
Theorem color_command_rejects
    (float_root : Z -> option Z) (line name : string) (w : world) :
  startswith (lower (Text.strip line)) "color" = true ->
  first_arg (lower (Text.strip line)) = Some name ->
  name ∉ ["red"; "green"; "blue"; "white"] ->
  loop_turn float_root (Line line) w = (Ok Continue, log (Print "Invalid color.") w).
Proof.
  intros Hkw Harg Hname. apply loop_turn_line. unfold handle_line.
  rewrite route_color by exact Hkw.
  rewrite bind_run, (cmd_color_invalid _ name) by assumption. reflexivity.
Qed.

(** ** The count command, in full *)

Section LedsCommand.

Variable float_root : Z -> option Z.

Hypothesis float_root_exact :
  forall n, 0 <= n <= 8 -> float_root (n * n) = Some n.

Hypothesis float_root_nonneg : forall v n, float_root v = Some n -> 0 <= n.

(** X9: [leds <v>] with an integer [v] stores [v] exactly when [v] is the
    square of one of 0..8, and then confirms it and touches nothing else;
    any other [v] leaves the world as it was but for one line printed, the
    usage line or "Must be square number ≤ 64.". *)
Theorem leds_command_accepts_squares (line : string) (v : Z) (w : world) :
  startswith (lower (Text.strip line)) "leds" = true ->
  numeric_arg (lower (Text.strip line)) = Some v ->
  (square_count v ->
   loop_turn float_root (Line line) w =
   (Ok Continue, log (Print ("LED grid for capture: " +:+ pretty v))
                     (with_cfg (set_led_count v) w))) /\
  (~ square_count v ->
   exists msg,
     loop_turn float_root (Line line) w = (Ok Continue, log (Print msg) w) /\
     msg ∈ ["Usage: leds <value>"; "Must be square number ≤ 64."]).
Proof.
  intros Hkw Harg. split.
  - intros (n & Hn & ->). apply loop_turn_line. unfold handle_line.
    rewrite route_leds by exact Hkw.
    rewrite bind_run, (cmd_leds_square float_root float_root_exact _ n)
      by assumption.
    reflexivity.
  - intros Hv.
    destruct (cmd_leds_rejects float_root (lower (Text.strip line)) v w
                (float_root_nonneg v) Harg Hv) as (msg & Hrun & Hmsg).
    exists msg. split; [|exact Hmsg].
    apply loop_turn_line. unfold handle_line. rewrite route_leds by exact Hkw.
    rewrite bind_run, Hrun. reflexivity.
Qed.

End LedsCommand.

(** ** Lines that are almost a command, and how a line is read *)

(** X10: the words capture, exit and quit are commands only when they are
    the whole line: followed by anything else they print
    "Unknown command.", take no picture and do not leave the loop. *)
Theorem trailing_text_is_unknown
    (float_root : Z -> option Z) (line word rest : string) (w : world) :
  word ∈ ["capture"; "exit"; "quit"] -> rest <> "" ->
  lower (Text.strip line) = word +:+ rest ->
  loop_turn float_root (Line line) w
  = (Ok Continue, log (Print "Unknown command.") w).
Proof.
  intros Hword Hrest Hline. apply loop_turn_line. unfold handle_line. rewrite Hline.
  destruct rest as [|a rest]; [congruence|].
  repeat (apply elem_of_cons in Hword as [->|Hword]);
    [| | |apply elem_of_nil in Hword; destruct Hword];
    rewrite route_unknown by (discriminate || reflexivity); reflexivity.
Qed.

Lemma lower_idem (s : string) : lower (lower s) = lower s.
Proof.
  induction s as [|c s IH]; [reflexivity|]. cbn [lower]. rewrite IH. f_equal.
  destruct c as [[] [] [] [] [] [] [] []]; reflexivity.
Qed.

(** X11: a line is read without regard to case or to blanks around it:
    the line in lower case, the line stripped, and the line with blanks put
    before and after it all do what the line does. *)
Theorem line_is_normalised
    (float_root : Z -> option Z) (line before after : string) :
  lstrip before = "" -> rstrip after = "" ->
  handle_line float_root (lower line) = handle_line float_root line /\
  handle_line float_root (Text.strip line) = handle_line float_root line /\
  handle_line float_root (before +:+ line +:+ after) = handle_line float_root line.
Proof.
  intros Hb Ha. unfold handle_line. split; [|split].
  - rewrite strip_lower, lower_idem. reflexivity.
  - rewrite strip_idem. reflexivity.
  - f_equal. f_equal. apply strip_padded; assumption.
Qed.

(** ** The settings stay valid *)

Lemma preserves_settings_kf {A} (m : M A) :
  keeps_field settings m -> preserves settings_ok m.
Proof.
  intros Hm w Hw. specialize (Hm w). unfold settings in Hm.
  injection Hm as Hcfg Hcam. unfold settings_ok. rewrite Hcfg, Hcam. exact Hw.
Qed.

Lemma kf_item {X} (f : world -> X) l i : keeps_field f (item l i).
Proof. unfold item. destruct (l !! i); [apply kf_ret|apply kf_raise]. Qed.

Lemma kf_int_of {X} (f : world -> X) s : keeps_field f (int_of s).
Proof. unfold int_of. destruct (parse_int s); [apply kf_ret|apply kf_raise]. Qed.

Ltac settings_kept :=
  apply preserves_settings_kf;
  solve [ repeat lazymatch goal with
                 | |- keeps_field _ (mbind _ _) => apply kf_bind; [|intros ?]
                 | |- keeps_field _ (item _ _) => apply kf_item
                 | |- keeps_field _ (int_of _) => apply kf_int_of
                 | |- keeps_field _ (mret _) => apply kf_ret
                 | |- keeps_field _ (raise _) => apply kf_raise
                 | |- keeps_field _ (print _) => apply (kf_print settings blind_settings)
                 | |- keeps_field _ focus_led_on =>
                     apply (kf_focus_led_on settings blind_settings)
                 | |- keeps_field _ (int_pow_half _ _) => apply (kf_int_pow_half settings)
                 | |- keeps_field _ (capture_sequence _) =>
                     apply (kf_capture_sequence settings blind_settings)
                 | |- keeps_field _ cleanup => apply (kf_cleanup settings blind_settings)
                 end ].

Lemma settings_ok_cfg (g : globals -> globals) (w : world) :
  current_brightness (g (cfg w)) = current_brightness (cfg w) ->
  current_exposure (g (cfg w)) = current_exposure (cfg w) ->
  current_color (g (cfg w)) = current_color (cfg w) ->
  settings_ok w -> settings_ok (with_cfg g w).
Proof.
  unfold settings_ok. cbn [cfg camera_exposure with_cfg].
  intros -> -> ->. auto.
Qed.

Lemma settings_cmd_brightness (u : string) : preserves settings_ok (cmd_brightness u).
Proof.
  unfold cmd_brightness. apply preserves_try_except; [|settings_kept].
  apply preserves_bind; [settings_kept|]. intros tok _.
  apply preserves_bind; [settings_kept|]. intros val _.
  destruct (_ && _) eqn:Hguard; [|settings_kept].
  apply andb_true_iff in Hguard as [H0%Z.leb_le H255%Z.leb_le].
  apply preserves_bind; [|intros; settings_kept].
  intros w (_ & He & Hc & Hcam). split; [|split; [|split]]; cbn; auto.
Qed.

Lemma settings_cmd_leds float_root (u : string) :
  preserves settings_ok (cmd_leds float_root u).
Proof.
  unfold cmd_leds. apply preserves_try_except; [|settings_kept].
  apply preserves_bind; [settings_kept|]. intros tok _.
  apply preserves_bind; [settings_kept|]. intros val _.
  apply preserves_bind; [settings_kept|]. intros n _.
  destruct (_ && _); [|settings_kept].
  apply preserves_bind; [|intros; settings_kept].
  intros w Hw. apply settings_ok_cfg; auto.
Qed.

Lemma settings_cmd_exposure (u : string) : preserves settings_ok (cmd_exposure u).
Proof.
  intros w Hw. destruct (numeric_arg u) as [v|] eqn:Harg.
  - destruct (Z.lt_ge_cases 0 v) as [Hv|Hv].
    + rewrite (cmd_exposure_ok u v) by assumption.
      destruct Hw as (Hb & _ & Hc & _). split; [|split; [|split]]; cbn; auto.
    + rewrite (cmd_exposure_nonpositive u v) by assumption. exact Hw.
  - rewrite cmd_exposure_usage by exact Harg. exact Hw.
Qed.

Lemma settings_cmd_color (u : string) : preserves settings_ok (cmd_color u).
Proof.
  unfold cmd_color. apply preserves_try_except; [|settings_kept].
  apply preserves_bind; [settings_kept|]. intros val _.
  destruct (bool_decide _) eqn:Hguard; [|settings_kept].
  apply bool_decide_eq_true_1 in Hguard.
  apply preserves_bind; [|intros; settings_kept].
  intros w (Hb & He & _ & Hcam). split; [|split; [|split]]; cbn; auto.
Qed.

Lemma settings_cmd_folder (u : string) : preserves settings_ok (cmd_folder u).
Proof.
  unfold cmd_folder.
  destruct (split1 u) as [|kw [|arg [|x l]]]; try settings_kept.
  destruct (Text.strip arg) as [|a name]; [settings_kept|].
  apply preserves_bind; [|intros; settings_kept].
  intros w Hw. apply settings_ok_cfg; auto.
Qed.

Lemma settings_handle_input float_root (u : string) :
  preserves settings_ok (handle_input float_root u).
Proof.
  unfold handle_input.
  repeat match goal with
         | |- preserves _ (if ?b then _ else _) => destruct b
         end;
    try (apply preserves_ret);
    (apply preserves_bind; [|intros; apply preserves_ret]).
  - apply settings_cmd_brightness.
  - apply settings_cmd_leds.
  - apply settings_cmd_exposure.
  - apply settings_cmd_color.
  - apply settings_cmd_folder.
  - settings_kept.
  - settings_kept.
Qed.

Lemma settings_loop_turn float_root (i : input) :
  preserves settings_ok (loop_turn float_root i).
Proof.
  intros w Hw. unfold loop_turn, try_except_interrupt. destruct i as [line|].
  - pose proof (settings_handle_input float_root (lower (Text.strip line)) w Hw) as H.
    unfold handle_line.
    destruct (handle_input float_root _ w) as [[c|[]] w1]; exact H.
  - exact Hw.
Qed.

Lemma settings_session float_root (inputs : list input) :
  preserves settings_ok (session float_root inputs).
Proof.
  unfold session. apply preserves_bind.
  - induction inputs as [|i inputs IH]; [apply preserves_ret|].
    cbn [command_loop]. apply preserves_bind; [apply settings_loop_turn|].
    intros [|] _; [exact IH|apply preserves_ret].
  - intros [|] _; [|apply preserves_ret].
    apply preserves_bind; [settings_kept|]. intros; apply preserves_ret.
Qed.

Lemma startup_settings (w : world) :
  exists w', startup w = (Ok tt, w') /\
             cfg w' = cfg w /\ camera_exposure w' = current_exposure (cfg w).
Proof.
  pose proof (kf_bind settings focus_led_on
                (fun _ => for_each
                   ["Live preview active."; "Commands:"; "  brightness <0–255>";
                    "  leds <1, 4, 9, ...>"; "  exposure <μs>";
                    "  color <red|green|blue|white>"; "  folder <folder_name>";
                    "  capture"; "  exit"] print)
                (kf_focus_led_on settings blind_settings)
                (fun _ => kf_for_each settings _ print
                            (kf_print settings blind_settings))) as Hrest.
  pose proof (keeps_startup w) as Hshape.
  unfold startup in *. rewrite bind_run in *. cbn [sleep_ms modify] in *.
  rewrite bind_run in *. cbn [gets] in *. rewrite bind_run in *.
  cbn [set_controls modify] in *.
  match goal with
  | |- context [mbind ?k ?m ?w1] => specialize (Hrest w1); destruct (mbind k m w1) as [[[]|e] w'] eqn:Hrun
  end.
  - exists w'. split; [reflexivity|]. unfold settings in Hrest.
    injection Hrest as -> ->. split; reflexivity.
  - exfalso. clear Hrest Hshape. revert Hrun. rewrite bind_run.
    destruct (focus_led_on _) as [[[]|e'] w2] eqn:Hf.
    + intros Hp. clear Hf.
      cbn [for_each] in Hp. repeat (rewrite bind_run in Hp; cbn [print modify] in Hp).
      discriminate Hp.
    + unfold focus_led_on, turn_off_all_leds in Hf. rewrite !bind_run in Hf.
      rewrite for_each_setPixelColor in Hf. cbn [show modify] in Hf.
      rewrite !bind_run in Hf. cbn [gets setBrightness setPixelColor show modify] in Hf.
      repeat (rewrite bind_run in Hf; cbn [gets setBrightness setPixelColor show modify] in Hf).
      discriminate Hf.
Qed.

(** X6: from start-up on, whatever the operator types and whatever the
    camera does, the brightness is within 0..255, the exposure is positive
    and is the one the camera is set to, and the colour is one of red,
    green, blue, white. *)
Theorem settings_always_valid
    (float_root : Z -> option Z) (inputs : list input)
    (faults : list bool) (now : datetime) :
  settings_ok (program float_root inputs (initial_world faults now)).2.
Proof.
  unfold program. rewrite bind_run.
  destruct (startup_settings (initial_world faults now)) as (w' & -> & Hcfg & Hcam).
  apply settings_session. unfold settings_ok. rewrite Hcfg, Hcam.
  split; [cbn; unfold DEFAULT_BRIGHTNESS; lia|]. split; [reflexivity|].
  split; [|reflexivity].
  cbn. apply list_elem_of_further, list_elem_of_here.
Qed.

(** ** Paths and frames, once more *)

Lemma string_length_app (a b : string) :
  String.length (a +:+ b) = (String.length a + String.length b)%nat.
Proof.
  induction a as [|x a IH]; [reflexivity|].
  change (String x a +:+ b) with (String x (a +:+ b)). cbn [String.length].
  rewrite IH. reflexivity.
Qed.

Lemma frame_path_longer (d : string) (rc : Z * Z) :
  String.length (frame_path d rc) <> String.length d.
Proof.
  unfold frame_path. rewrite path_join_frame, string_length_app.
  assert (0 < String.length (frame_name rc.1 rc.2))%nat as Hname
    by (unfold frame_name; rewrite string_length_app;
        change (String.length "led_r") with 5%nat; lia).
  destruct (_ || _); [lia|]. rewrite string_length_app. lia.
Qed.

Lemma last_snoc_frames (fs : list (list Z)) (f : list Z) : last (fs ++ [f]) = Some f.
Proof. apply last_snoc. Qed.
(** ** Leaving the loop *)

Lemma cleanup_spec (w : world) :
  wf_world w -> cleanup w = (Ok tt, log (Print "Done.") (all_off w)).
Proof.
  intros Hwf. unfold cleanup.
  rewrite bind_run, (turn_off_all_leds_spec _ Hwf). reflexivity.
Qed.

(** X12: [exit] or [quit], in any case and with blanks around, ends the
    loop at once: the lines after it are not read, the clean-up switches
    every LED off and prints "Done.", and the globals, files and camera
    stay as they were. *)
Theorem exit_runs_cleanup
    (float_root : Z -> option Z) (line : string) (rest : list input) (w : world) :
  wf_world w -> lower (Text.strip line) ∈ ["exit"; "quit"] ->
  exists w',
    session float_root (Line line :: rest) w = (Ok Exited, w') /\
    trace w' = trace w ++ [Show dark (level (strip w)); Print "Done."] /\
    leds (strip w') = dark /\
    cfg w' = cfg w /\ files w' = files w /\ camera_exposure w' = camera_exposure w.
Proof.
  intros Hwf Hline. exists (log (Print "Done.") (all_off w)).
  split; [|unfold all_off; cbn; rewrite <- app_assoc; repeat split].
  unfold session. rewrite bind_run. cbn [command_loop]. rewrite bind_run.
  unfold loop_turn, try_except_interrupt, handle_line, handle_input.
  rewrite bool_decide_eq_true_2 by exact Hline.
  cbn [mret M_ret]. rewrite bind_run, (cleanup_spec _ Hwf). reflexivity.
Qed.

(** X13: Ctrl-C at the prompt does what [exit] does: the loop ends, the
    lines after it are not read, every LED is switched off and "Done." is
    printed. *)
Theorem interrupt_runs_cleanup
    (float_root : Z -> option Z) (rest : list input) (w : world) :
  wf_world w ->
  exists w',
    session float_root (Interrupt :: rest) w = (Ok Exited, w') /\
    trace w' = trace w ++ [Show dark (level (strip w)); Print "Done."] /\
    leds (strip w') = dark /\
    cfg w' = cfg w /\ files w' = files w /\ camera_exposure w' = camera_exposure w.
Proof.
  intros Hwf. exists (log (Print "Done.") (all_off w)).
  split; [|unfold all_off; cbn; rewrite <- app_assoc; repeat split].
  unfold session. rewrite bind_run. cbn [command_loop]. rewrite bind_run.
  unfold loop_turn, try_except_interrupt. cbn [raise mret M_ret].
  rewrite bind_run, (cleanup_spec _ Hwf). reflexivity.
Qed.

(** ** More on capture runs *)

Lemma paused_app (l1 l2 : list event) : paused (l1 ++ l2) = paused l1 + paused l2.
Proof.
  unfold paused. induction l1 as [|e l1 IH]; [reflexivity|].
  destruct e; cbn in *; lia.
Qed.

Lemma paused_coords d b c (l : list (Z * Z)) :
  paused (concat (coord_events d b c <$> l)) = 400 * Z.of_nat (length l).
Proof.
  induction l as [|rc l IH]; [reflexivity|].
  cbn [fmap list_fmap concat length]. rewrite paused_app, IH.
  change (paused (coord_events d b c rc)) with 400. lia.
Qed.

Lemma completed_frame (n : Z) (w : world) :
  cfg (completed n w) = cfg w /\ clock (completed n w) = clock w /\
  camera_faults (completed n w) = drop (length (plan_of_side n)) (camera_faults w) /\
  dirs (completed n w) = {[ save_dir_of w ]} ∪ dirs w /\
  files (completed n w) =
    list_to_set (frame_path (save_dir_of w) <$> plan_of_side n) ∪ files w /\
  wf_world (completed n w).
Proof.
  unfold completed, focus_on, all_off, wf_world.
  cbn [cfg clock camera_faults dirs files strip pixels log with_strip].
  destruct (after_coords_frame (save_dir_of w) (plan_of_side n) (prepared w))
    as (-> & _ & -> & -> & ->).
  rewrite after_coords_files. repeat split.
Qed.

Section MoreRuns.

Variable float_root : Z -> option Z.

Hypothesis float_root_exact :
  forall n, 0 <= n <= 8 -> float_root (n * n) = Some n.

(** X14: when the camera fails on a capture, the run stops with the LED
    of that coordinate still lit: it is the one LED on (unless the colour is
    "off"), nothing switches it off and the focus indicator is not put
    back. *)
Theorem failed_run_leaves_led_lit
    (n : Z) (k : nat) (rc : Z * Z) (rest : list bool) (w : world) :
  wf_world w -> 0 <= n <= 8 -> current_led_count (cfg w) = n * n ->
  save_dir_of w ∉ files w ->
  sub_grid ((8 - n) `div` 2) n !! k = Some rc ->
  camera_faults w = replicate k false ++ true :: rest ->
  exists w',
    capture_sequence float_root w = (Raise CameraError, w') /\
    leds (strip w') = lit (index rc.1 rc.2) (get_color (current_color (cfg w))) /\
    (lower (current_color (cfg w)) <> "off" -> lit_count (leds (strip w')) = 1%nat) /\
    last (frames_of (trace w')) = Some (leds (strip w')) /\
    camera_faults w' = rest.
Proof.
  intros Hwf Hn Hcount Hd Hk Hcam.
  change (sub_grid ((8 - n) `div` 2) n) with (plan_of_side n) in Hk.
  exists (aborted n k rc w).
  split; [apply (capture_sequence_aborts float_root float_root_exact n k rc rest);
          assumption|].
  assert (leds (strip (aborted n k rc w)) =
          lit (index rc.1 rc.2) (get_color (current_color (cfg w)))) as Hleds.
  { unfold aborted, failed_coord. cbn [strip leds].
    destruct (after_coords_frame (save_dir_of w) (take k (plan_of_side n)) (prepared w))
      as (-> & _). reflexivity. }
  split; [exact Hleds|]. split; [|split].
  - intros Hoff. rewrite Hleds. apply lit_count_lit_on.
    + apply index_in_grid. pose proof (plan_in_grid n Hn) as Hgrid.
      rewrite Forall_forall in Hgrid. apply Hgrid. apply list_elem_of_lookup. eauto.
    + intros H. apply Hoff, get_color_zero_iff, H.
  - rewrite Hleds, aborted_trace, !app_assoc. unfold failed_events.
    rewrite frames_of_app. cbn [frames_of omap]. apply last_snoc_frames.
  - unfold aborted, failed_coord. cbn [camera_faults].
    destruct (after_coords_frame (save_dir_of w) (take k (plan_of_side n)) (prepared w))
      as (_ & _ & _ & _ & ->).
    change (camera_faults (prepared w)) with (camera_faults w).
    rewrite Hcam, length_take_le by (apply lookup_lt_Some in Hk; lia).
    rewrite drop_app_length'; [reflexivity|symmetry; apply length_replicate].
Qed.

(** X15: the pauses of a run that completes add up to 400 ms per frame:
    300 ms before and 100 ms after each capture, and no other pause. *)
Theorem run_pause_total (n : Z) (w w' : world) :
  wf_world w -> 0 <= n <= 8 -> current_led_count (cfg w) = n * n ->
  capture_sequence float_root w = (Ok tt, w') ->
  exists evs, trace w' = trace w ++ evs /\
              paused evs = 400 * current_led_count (cfg w).
Proof.
  intros Hwf Hn Hcount Hrun.
  apply (capture_sequence_completed_inv float_root float_root_exact n) in Hrun
    as (-> & _ & _); try assumption.
  destruct (completed_trace n w) as (lv' & Htrace). eexists. split; [exact Htrace|].
  rewrite !paused_app, paused_coords, length_plan, Hcount by lia.
  change (paused (prepare_events w)) with 0.
  change (paused [Print "Capture complete."; Show dark lv'; Show _ _]) with 0.
  lia.
Qed.

(** X16: with a folder name set, a second run after one that completed
    completes too: the directory being there already is no error, and the
    second run writes over the same files, leaving the files and directories
    on disk as the first run left them. *)
Theorem second_run_rewrites_files (n : Z) (c : ascii) (name : string) (w : world) :
  wf_world w -> 0 <= n <= 8 -> current_led_count (cfg w) = n * n ->
  current_folder_name (cfg w) = Some (String c name) ->
  save_dir_of w ∉ files w ->
  true ∉ take (Z.to_nat (n * n) + Z.to_nat (n * n)) (camera_faults w) ->
  exists w1 w2,
    capture_sequence float_root w = (Ok tt, w1) /\
    capture_sequence float_root w1 = (Ok tt, w2) /\
    save_dir_of w1 = save_dir_of w /\
    save_dir_of w ∈ dirs w1 /\
    files w2 = files w1 /\ dirs w2 = dirs w1 /\
    captured (drop (length (trace w1)) (trace w2))
    = captured (drop (length (trace w)) (trace w1)).
Proof.
  intros Hwf Hn Hcount Hfolder Hd Hcam.
  rewrite <- take_take_drop in Hcam. apply not_elem_of_app in Hcam as [Hcam1 Hcam2].
  destruct (completed_frame n w) as (Hcfg & Hclock & Hfaults & Hdirs & Hfiles & Hwf1).
  assert (save_dir_of (completed n w) = save_dir_of w) as Hsame.
  { unfold save_dir_of. rewrite Hcfg, Hclock. reflexivity. }
  destruct (completed_frame n (completed n w))
    as (_ & _ & _ & Hdirs2 & Hfiles2 & _).
  rewrite Hsame in Hdirs2, Hfiles2.
  exists (completed n w), (completed n (completed n w)).
  split; [apply capture_sequence_completes; assumption|].
  split; [|split; [exact Hsame|split; [|split; [|split]]]].
  - apply capture_sequence_completes; try assumption.
    + rewrite Hcfg. exact Hcount.
    + rewrite Hsame, Hfiles. apply not_elem_of_union. split; [|exact Hd].
      rewrite elem_of_list_to_set. intros (rc & Heq & _)%list_elem_of_fmap.
      apply (frame_path_longer (save_dir_of w) rc). rewrite <- Heq. reflexivity.
    + rewrite Hfaults, length_plan by lia. exact Hcam2.
  - rewrite Hdirs. apply elem_of_union_l, elem_of_singleton. reflexivity.
  - rewrite Hfiles2, Hfiles. set_solver.
  - rewrite Hdirs2, Hdirs. set_solver.
  - destruct (completed_trace n w) as (lv1 & Ht1).
    destruct (completed_trace n (completed n w)) as (lv2 & Ht2).
    rewrite Ht2, drop_app_length. rewrite Ht1, drop_app_length.
    rewrite !captured_app, !captured_coords, Hsame. reflexivity.
Qed.

End MoreRuns.

(** *** Witnesses of the further properties *)

Lemma index_bijection_witness :
  in_grid (4, 3) /\ index 4 3 = 35 /\ 35 `div` 8 = 4 /\ 35 `mod` 8 = 3 /\
  NoDup ((fun rc : Z * Z => index rc.1 rc.2) <$> plan_of_side 2).
Proof.
  destruct index_bijection as (Hcell & _ & Hplan).
  assert (in_grid (4, 3)) as Hin by (unfold in_grid; simpl; lia).
  destruct (Hcell 4 3 Hin) as (_ & Hdiv & Hmod).
  split; [exact Hin|]. split; [reflexivity|]. split; [exact Hdiv|].
  split; [exact Hmod|]. apply Hplan. lia.
Defined.

Lemma get_color_values_witness :
  get_color "OFF" = 0 /\ get_color "purple" = Color 255 255 255.
Proof.
  split.
  - apply (proj1 (get_color_values "OFF")). reflexivity.
  - apply (proj1 (proj2 (get_color_values "purple"))).
    intros H. repeat (apply elem_of_cons in H as [H|H]; [discriminate H|]).
    apply elem_of_nil in H. exact H.
Defined.

Lemma turn_off_all_leds_idempotent_witness :
  wf_world (focus_on sample_world) /\
  exists w1 w2,
    turn_off_all_leds (focus_on sample_world) = (Ok tt, w1) /\
    turn_off_all_leds w1 = (Ok tt, w2) /\ strip w2 = strip w1 /\
    leds (strip w1) = dark.
Proof.
  assert (wf_world (focus_on sample_world)) as Hwf by reflexivity.
  split; [exact Hwf|].
  destruct (turn_off_all_leds_idempotent (focus_on sample_world) Hwf)
    as (w1 & w2 & H1 & H2 & Hsame & _ & Hdark & _).
  exists w1, w2. repeat split; assumption.
Defined.

Lemma focus_led_is_the_only_one_witness :
  lit_count (leds (strip (focus_led_on sample_world).2)) = 1%nat /\
  leds (strip (focus_led_on sample_world).2) !! 27%nat = Some (get_color "green").
Proof.
  destruct (focus_led_is_the_only_one sample_world) as (Hone & H27 & _).
  - reflexivity.
  - discriminate.
  - split; [exact Hone|exact H27].
Defined.

Lemma exposure_command_witness :
  (exists w', loop_turn exact_root (Line "Exposure 5000") sample_world
              = (Ok Continue, w') /\
              current_exposure (cfg w') = 5000 /\ camera_exposure w' = 5000) /\
  loop_turn exact_root (Line "exposure 0") sample_world
  = (Ok Continue, log (Print "Must be positive.") sample_world).
Proof.
  split.
  - destruct (proj1 (exposure_command exact_root "Exposure 5000" 5000 sample_world
                       eq_refl eq_refl))
      as (w' & Hrun & Hcfg & Hcam & _); [lia|].
    exists w'. repeat split; assumption.
  - apply (proj2 (exposure_command exact_root "exposure 0" 0 sample_world
                    eq_refl eq_refl)). lia.
Defined.

Lemma color_command_rejects_witness :
  loop_turn exact_root (Line "color off") sample_world
  = (Ok Continue, log (Print "Invalid color.") sample_world).
Proof.
  apply (color_command_rejects exact_root "color off" "off" sample_world);
    [reflexivity|reflexivity|].
  intros H. repeat (apply elem_of_cons in H as [H|H]; [discriminate H|]).
  apply elem_of_nil in H. exact H.
Defined.

Lemma leds_command_accepts_squares_witness :
  loop_turn exact_root (Line "leds 16") sample_world
  = (Ok Continue, log (Print ("LED grid for capture: " +:+ pretty 16))
                      (with_cfg (set_led_count 16) sample_world)) /\
  exists msg,
    loop_turn exact_root (Line "leds 5") sample_world
    = (Ok Continue, log (Print msg) sample_world) /\
    msg ∈ ["Usage: leds <value>"; "Must be square number ≤ 64."].
Proof.
  split.
  - apply (proj1 (leds_command_accepts_squares exact_root exact_root_ok
                    exact_root_nonneg "leds 16" 16 sample_world eq_refl eq_refl)).
    exists 4. split; [lia|reflexivity].
  - apply (proj2 (leds_command_accepts_squares exact_root exact_root_ok
                    exact_root_nonneg "leds 5" 5 sample_world eq_refl eq_refl)).
    intros (n & Hn & Hsq).
    assert (n = 0 \/ n = 1 \/ n = 2 \/ n = 3 \/ n = 4 \/ n = 5 \/ n = 6 \/ n = 7 \/ n = 8)
      as Hcases by lia.
    destruct Hcases as [->|[->|[->|[->|[->|[->|[->|[->| ->]]]]]]]]; discriminate Hsq.
Defined.

Lemma trailing_text_is_unknown_witness :
  loop_turn exact_root (Line "Capture now") sample_world
  = (Ok Continue, log (Print "Unknown command.") sample_world).
Proof.
  apply (trailing_text_is_unknown exact_root "Capture now" "capture" " now").
  - apply list_elem_of_here.
  - discriminate.
  - reflexivity.
Defined.

Lemma line_is_normalised_witness :
  handle_line exact_root ("  " +:+ "LEDS 9" +:+ " ") = handle_line exact_root "LEDS 9" /\
  handle_line exact_root (lower "LEDS 9") = handle_line exact_root "LEDS 9".
Proof.
  destruct (line_is_normalised exact_root "LEDS 9" "  " " " eq_refl eq_refl)
    as (Hlower & _ & Hpad).
  split; [exact Hpad|exact Hlower].
Defined.

Lemma exit_runs_cleanup_witness :
  exists w',
    session exact_root [Line " EXIT"; Line "capture"] (focus_on sample_world)
    = (Ok Exited, w') /\
    leds (strip w') = dark /\ files w' = files (focus_on sample_world).
Proof.
  destruct (exit_runs_cleanup exact_root " EXIT" [Line "capture"] (focus_on sample_world))
    as (w' & Hrun & _ & Hleds & _ & Hfiles & _).
  - reflexivity.
  - apply list_elem_of_here.
  - exists w'. repeat split; assumption.
Defined.

Lemma interrupt_runs_cleanup_witness :
  exists w',
    session exact_root [Interrupt; Line "capture"] (focus_on sample_world)
    = (Ok Exited, w') /\
    leds (strip w') = dark.
Proof.
  destruct (interrupt_runs_cleanup exact_root [Line "capture"] (focus_on sample_world))
    as (w' & Hrun & _ & Hleds & _).
  - reflexivity.
  - exists w'. split; assumption.
Defined.

Lemma failed_run_leaves_led_lit_witness :
  exists w',
    capture_sequence exact_root faulty_world = (Raise CameraError, w') /\
    leds (strip w') = lit 35 (get_color "green") /\
    lit_count (leds (strip w')) = 1%nat.
Proof.
  destruct (failed_run_leaves_led_lit exact_root exact_root_ok 2 2 (4, 3) []
              faulty_world)
    as (w' & Hrun & Hleds & Hone & _).
  - reflexivity.
  - lia.
  - reflexivity.
  - apply not_elem_of_empty.
  - reflexivity.
  - reflexivity.
  - exists w'. split; [exact Hrun|]. split; [exact Hleds|]. apply Hone. discriminate.
Defined.

Lemma run_pause_total_witness :
  exists evs,
    trace (completed 2 sample_world) = trace sample_world ++ evs /\
    paused evs = 1600.
Proof.
  apply (run_pause_total exact_root exact_root_ok 2 sample_world
           (completed 2 sample_world)).
  - reflexivity.
  - lia.
  - reflexivity.
  - exact sample_run.
Defined.

Lemma second_run_rewrites_files_witness :
  exists w1 w2,
    capture_sequence exact_root named_world = (Ok tt, w1) /\
    capture_sequence exact_root w1 = (Ok tt, w2) /\
    files w2 = files w1 /\ dirs w2 = dirs w1.
Proof.
  destruct (second_run_rewrites_files exact_root exact_root_ok 2 "r" "un1" named_world)
    as (w1 & w2 & H1 & H2 & _ & _ & Hfiles & Hdirs & _).
  - reflexivity.
  - lia.
  - reflexivity.
  - reflexivity.
  - apply not_elem_of_empty.
  - apply not_elem_of_nil.
  - exists w1, w2. repeat split; assumption.
Defined.
